(** * BoxED importer: a shallow embedding of [helpers.py] and
    [boxed_importer.py], and the properties of its file discovery, name
    normalisation, record assembly and query helpers.

    Conventions of the embedding.
    - A Python [str] is a [string]; its characters are code points below 256,
      for which the regular expression class [\d] is exactly [0-9].
    - A Python [int] is a [Z]; list positions and loop counters are [nat].
    - A Python tuple of ints (the participant and scene numbers of a path) is
      a [list Z]; it has as many components as the path has digit runs.
    - A statement that can raise is a computation in the monad [res]; the
      constructors of [exn] are the Python exception classes that the code can
      meet.  [exit(1)] raises [SystemExit 1].
    - The file system is a [world]: what [os.walk] enumerates below a folder
      and what [open] followed by [json.load] gives for a path.
    - JSON numbers are modelled at integer values.  The entries of a rotation
      or of a translation are only stored, never computed on.
    - numpy belongs to the environment as well.  What [np.asarray] makes of a
      rotation or of a translation, and whether it raises, is asked from the
      [world].  An array of integers compared with an integer is computed
      here when all the numbers fit 64 bits, where numpy compares them
      exactly; outside of that range the answer is the [world]'s. *)

From Stdlib Require Import ZArith Lia Ascii String.
From stdpp Require Import base tactics option list strings sorting gmap.

Set Warnings "-register-all".

Local Open Scope Z_scope.

(** ** Exceptions and the result monad *)

Inductive exn : Type :=
  | IndexError
  | KeyError
  | TypeError
  | AttributeError
  | ValueError
  | OSError
  | SystemExit (code : Z).

Inductive res (A : Type) : Type :=
  | Ok (a : A)
  | Raise (e : exn).

Arguments Ok {A} a.
Arguments Raise {A} e.

Definition bind {A B : Type} (m : res A) (k : A -> res B) : res B :=
  match m with
  | Ok a => k a
  | Raise e => Raise e
  end.

Notation "x <- m ;; k" := (bind m (fun x => k))
  (at level 100, m at next level, right associativity).

(** [for x in l: st = f st x], where the body can raise. *)
Fixpoint foldM {A S : Type} (f : S -> A -> res S) (st : S) (l : list A) : res S :=
  match l with
  | [] => Ok st
  | x :: l' => st' <- f st x ;; foldM f st' l'
  end.

(** [for x in l: out.append(f x)], where the body can raise. *)
Fixpoint mapM {A B : Type} (f : A -> res B) (l : list A) : res (list B) :=
  match l with
  | [] => Ok []
  | x :: l' => y <- f x ;; ys <- mapM f l' ;; Ok (y :: ys)
  end.

Definition is_exit (e : exn) : bool :=
  match e with
  | SystemExit _ => true
  | _ => false
  end.

(** ** Strings *)

(** [s.find(sub)]: the first position at which [sub] occurs, or [-1]. *)
Fixpoint str_find (sub s : string) : Z :=
  if String.prefix sub s then 0
  else match s with
       | EmptyString => -1
       | String _ s' => let r := str_find sub s' in
                        if r =? -1 then -1 else r + 1
       end.

(** [sub in s] *)
Definition str_in (sub s : string) : bool := negb (str_find sub s =? -1).

Definition len (s : string) : Z := Z.of_nat (String.length s).

(** [s[0:k]]: a negative bound counts from the end, and both ends saturate. *)
Definition slice_to (s : string) (k : Z) : string :=
  let k' := if k <? 0 then Z.max 0 (len s + k) else Z.min k (len s) in
  String.substring 0 (Z.to_nat k') s.

(** [s[-k:]] for a positive [k]: the last [k] characters, or all of [s]. *)
Definition slice_last (k : nat) (s : string) : string :=
  String.substring (String.length s - k) k s.

Definition is_digit (c : ascii) : bool :=
  let n := N_of_ascii c in ((48 <=? n) && (n <=? 57))%N.

Definition digit_val (c : ascii) : Z := Z.of_N (N_of_ascii c) - 48.

Fixpoint int_of_digits_from (acc : Z) (s : string) : Z :=
  match s with
  | EmptyString => acc
  | String c s' => int_of_digits_from (10 * acc + digit_val c) s'
  end.

(** [int(s)] on a run of decimal digits. *)
Definition int_of_digits (s : string) : Z := int_of_digits_from 0 s.

(** ** helpers.py: [get_clean_name] *)

Definition get_clean_name (name : string) : string :=
  let idx1 := str_find "(" name in
  let idx2 := str_find "-" name in
  let delete_idx :=
    if negb (idx1 =? -1) || negb (idx2 =? -1) then
      if 0 <? Z.min idx1 idx2 then Z.min idx1 idx2 else Z.max idx1 idx2
    else len name in
  slice_to name delete_idx.

(** ** Tuples, comparison and [sorted] *)

(** The participant and scene numbers of a path: one component per run of
    digits of the path. *)
Definition identity : Type := list Z.

Definition list_get {A : Type} (l : list A) (i : nat) : res A :=
  match l !! i with
  | Some x => Ok x
  | None => Raise IndexError
  end.

(** [t[i]] on a tuple *)
Definition tuple_get (t : identity) (i : nat) : res Z := list_get t i.

(** [l[a:b]] for [0 <= a] and [0 <= b] *)
Definition slice {A : Type} (a b : nat) (l : list A) : list A :=
  drop a (take b l).

(** [a == b] on tuples of ints *)
Fixpoint tuple_eqb (a b : identity) : bool :=
  match a, b with
  | [], [] => true
  | x :: a', y :: b' => (x =? y) && tuple_eqb a' b'
  | _, _ => false
  end.

(** [a < b] on tuples of ints: the first differing component decides, and a
    proper prefix is smaller. *)
Fixpoint tuple_ltb (a b : identity) : bool :=
  match a, b with
  | [], [] => false
  | [], _ :: _ => true
  | _ :: _, [] => false
  | x :: a', y :: b' => if x =? y then tuple_ltb a' b' else x <? y
  end.

(** An element of [zip(part_scene_nums, all_file_paths)]. *)
Definition entry : Type := identity * string.

(** [e1 < e2] on pairs of a tuple and a path: the tuples decide unless they
    are equal, and then the paths are compared as strings. *)
Definition entry_ltb (e1 e2 : entry) : bool :=
  if tuple_eqb e1.1 e2.1 then String.ltb e1.2 e2.2 else tuple_ltb e1.1 e2.1.

Section Sorted.
Context {A : Type} (ltb : A -> A -> bool).

(** [x] goes after the elements smaller than it, before the first element
    that is not. *)
Fixpoint insert_sorted (x : A) (l : list A) : list A :=
  match l with
  | [] => [x]
  | y :: l' => if ltb y x then y :: insert_sorted x l' else x :: y :: l'
  end.

(** [sorted(l)]: a stable sort that compares with [<] only.  The elements
    are inserted from the last to the first, each before the elements that
    are not smaller, so that equal elements keep their order. *)
Definition py_sorted (l : list A) : list A := foldr insert_sorted [] l.
End Sorted.

(** ** The file system *)

(** [os.path.join(path, name)] (POSIX) *)
Definition path_join (path name : string) : string :=
  if String.prefix "/" name then name
  else if (String.length path =? 0)%nat then name
  else if String.eqb (slice_last 1 path) "/" then path +:+ name
  else path +:+ "/" +:+ name.

(** JSON documents as [json.load] returns them: [JObj] is a [dict] in
    insertion order, [JArr] a [list]. *)
Inductive json : Type :=
  | JNull
  | JBool (b : bool)
  | JInt (z : Z)
  | JStr (s : string)
  | JArr (l : list json)
  | JObj (kv : list (string * json)).

Record world : Type := {
  (** [path.exists(root) and path.isdir(root)] *)
  is_dir : string -> bool;
  (** the [(path, files)] that [os.walk(root)] yields, in its order *)
  os_walk : string -> list (string * list string);
  (** [open(file)] followed by [json.load] *)
  json_load : string -> res json;
  (** [np.asarray(v)] on a value read from a JSON document: the content of
      the array, or the exception of numpy *)
  np_asarray : json -> res json;
  (** [np_equal_wide nums n x]: the component for [x] of
      [np.asarray(nums) == n], when a number of [nums] or [n] does not fit a
      signed 64-bit integer *)
  np_equal_wide : list Z -> Z -> Z -> bool
}.

(** The numbers that numpy stores as [int64]. *)
Definition int64 (n : Z) : bool := (- 2 ^ 63 <=? n) && (n <? 2 ^ 63).

(** [np.asarray(nums) == n], as the list of its components. *)
Definition np_equal (w : world) (nums : list Z) (n : Z) : list bool :=
  if forallb int64 nums && int64 n
  then map (fun x => x =? n) nums
  else map (np_equal_wide w nums n) nums.

(** [for x in data] *)
Definition py_iter (data : json) : res (list json) :=
  match data with
  | JArr l => Ok l
  | JObj kv => Ok (map (fun p => JStr p.1) kv)
  | JStr s => Ok (map (fun c => JStr (String c EmptyString)) (list_ascii_of_string s))
  | JNull | JBool _ | JInt _ => Raise TypeError
  end.

Fixpoint assoc (k : string) (kv : list (string * json)) : option json :=
  match kv with
  | [] => None
  | (k', v) :: kv' => if String.eqb k k' then Some v else assoc k kv'
  end.

(** [v[key]] for a string [key] *)
Definition py_getitem (v : json) (key : string) : res json :=
  match v with
  | JObj kv => match assoc key kv with
               | Some x => Ok x
               | None => Raise KeyError
               end
  | _ => Raise TypeError
  end.

(** [v.attr] for an attribute that is no method of a built-in type: the
    values that [json.load] returns are [dict], [list], [str], [int], [bool]
    and [None], and none of them has it. *)
Definition py_getattr (v : json) (attr : string) : res json :=
  Raise AttributeError.

(** ** helpers.py: [file_crawler] *)

(** [re.findall(r'\d+', s)]: the maximal runs of digits of [s], from left to
    right.  [run] is the run that ends at the current position. *)
Fixpoint findall_digits_from (run : string) (s : string) : list string :=
  match s with
  | EmptyString => if (String.length run =? 0)%nat then [] else [run]
  | String c s' =>
      if is_digit c then findall_digits_from (run +:+ String c EmptyString) s'
      else if (String.length run =? 0)%nat then findall_digits_from EmptyString s'
      else run :: findall_digits_from EmptyString s'
  end.

Definition findall_digits (s : string) : list string :=
  findall_digits_from EmptyString s.

(** [tuple(int(s) for s in re.findall(r'\d+', path))] *)
Definition part_scene_number (path : string) : identity :=
  map int_of_digits (findall_digits path).

(** The two lists that the walk fills, in discovery order. *)
Definition found : Type := list string * list identity.

(** The body of the inner loop, for the file [name] of the folder [path]. *)
Definition crawl_file (target_filename : string) (uniq_seqs : bool)
    (path : string) (acc : found) (name : string) : res found :=
  if str_in target_filename name then
    let psn := part_scene_number path in
    skip <- (if uniq_seqs then
               scene <- tuple_get psn 1 ;;
               if negb (scene =? 1) then Ok true
               else part <- tuple_get psn 0 ;; Ok (part <? 26)
             else Ok false) ;;
    if skip then Ok acc
    else Ok (acc.1 ++ [path_join path name], acc.2 ++ [psn])
  else Ok acc.

Definition crawl_dir (target_filename : string) (uniq_seqs : bool)
    (acc : found) (d : string * list string) : res found :=
  foldM (crawl_file target_filename uniq_seqs d.1) acc d.2.

(** The walk of [file_crawler], before the lists are sorted. *)
Definition crawl (w : world) (root_folder target_filename : string)
    (uniq_seqs : bool) : res found :=
  foldM (crawl_dir target_filename uniq_seqs) ([], []) (os_walk w root_folder).

(** The two sorting passes.  The second pass zips the identities, still in
    discovery order, with the paths that the first pass has already sorted. *)
Definition sort_found (f : found) : found :=
  let all_file_paths := f.1 in
  let part_scene_nums := f.2 in
  let all_file_paths' :=
    map snd (py_sorted entry_ltb (zip part_scene_nums all_file_paths)) in
  let part_scene_nums' :=
    map fst (py_sorted entry_ltb (zip part_scene_nums all_file_paths')) in
  (all_file_paths', part_scene_nums').

Definition file_crawler (w : world) (root_folder target_filename : string)
    (uniq_seqs : bool) : res found :=
  f <- crawl w root_folder target_filename uniq_seqs ;;
  Ok (sort_found f).

(** ** boxed_importer.py: the data classes *)

(** [Pose]: [np.asarray] keeps the nested lists it is given. *)
Record Pose : Type := {
  rotation : json;
  translation : json
}.

(** [PoseWithTime(Pose)] *)
Record PoseWithTime : Type := {
  pose : Pose;
  time_stamp : json
}.

(** [ObjWithTraj(Obj)] *)
Record ObjWithTraj : Type := {
  name : string;
  unique_id : Z;
  pick_pose : Pose;
  place_pose : Pose;
  trajectory : list PoseWithTime
}.

Record Scene : Type := {
  scene_num : Z;
  initial_objs : list string;
  objs_info : list ObjWithTraj;
  cam_traj : list PoseWithTime
}.

Record Participant : Type := {
  part_num : Z;
  scenes : list Scene
}.

Record BoxED : Type := {
  root_folder : string;
  load_cam_traj : bool;
  participants : list Participant
}.

Definition UNIQ_OBJS : Z := 26.

Definition ALL_OBJS : list string :=
  ["002 masterchef can"; "003 cracker box"; "004 sugar box";
   "005 tomato soup can"; "006 mustard bottle"; "007 tuna fish can";
   "008 pudding box"; "010 potted meat can"; "011 banana"; "012 strawberry";
   "013 apple"; "014 lemon"; "015 peach"; "016 pear"; "017 orange";
   "018 plum"; "021 bleach cleanser"; "025 mug"; "057 racquetball";
   "058 golf ball"; "100 half egg carton"; "101 bread"; "102 toothbrush";
   "103 toothpaste"].

(** ** [int(s)] on an arbitrary string *)

(** The characters that [int] skips at both ends: the white space of ASCII
    and, above it, the code points 133 and 160.  The separators 28 to 31 are
    white space for [str.strip] but not for [int]. *)
Definition is_space (c : ascii) : bool :=
  let n := N_of_ascii c in
  (((9 <=? n) && (n <=? 13)) || (n =? 32) || (n =? 133) || (n =? 160))%N.

Fixpoint lstrip (s : string) : string :=
  match s with
  | EmptyString => EmptyString
  | String c s' => if is_space c then lstrip s' else s
  end.

Definition strip (s : string) : string :=
  String.rev (lstrip (String.rev (lstrip s))).

(** Decimal digits, with single underscores allowed between two digits.
    [after_digit] tells whether the previous character was a digit. *)
Fixpoint int_body (acc : Z) (after_digit : bool) (s : string) : option Z :=
  match s with
  | EmptyString => if after_digit then Some acc else None
  | String c s' =>
      if is_digit c then int_body (10 * acc + digit_val c) true s'
      else if Ascii.eqb c "_" && after_digit then int_body acc false s'
      else None
  end.

Definition py_int (s : string) : res Z :=
  let t := strip s in
  let signed :=
    match t with
    | String "-" r => (true, r)
    | String "+" r => (false, r)
    | _ => (false, t)
    end in
  match int_body 0 false signed.2 with
  | Some n => Ok (if signed.1 then - n else n)
  | None => Raise ValueError
  end.

(** ** boxed_importer.py: loading the pick and place files *)

(** [Pose(rotation, translation)] *)
Definition Pose_init (w : world) (rot trans : json) : res Pose :=
  r <- np_asarray w rot ;;
  t <- np_asarray w trans ;;
  Ok {| rotation := r; translation := t |}.

(** [PoseWithTime(rotation, translation, time_stamp)] *)
Definition PoseWithTime_init (w : world) (rot trans ts : json)
    : res PoseWithTime :=
  p <- Pose_init w rot trans ;;
  Ok {| pose := p; time_stamp := ts |}.

(** [Obj.add_obj_info]: [get_clean_name] calls [name.find], an attribute that
    only a [str] has. *)
Definition Obj_add_obj_info (w : world)
    (id pick_rot pick_trans place_rot place_trans : json) : res ObjWithTraj :=
  match id with
  | JStr raw =>
      let clean := get_clean_name raw in
      uid <- py_int (slice_last 4 raw) ;;
      pick <- Pose_init w pick_rot pick_trans ;;
      place <- Pose_init w place_rot place_trans ;;
      Ok {| name := clean;
            unique_id := uid;
            pick_pose := pick;
            place_pose := place;
            trajectory := [] |}
  | _ => Raise AttributeError
  end.

(** The body of the loop of [Scene.add_objects]. *)
Definition load_obj (w : world) (obj_data : json) : res ObjWithTraj :=
  id <- py_getitem obj_data "id" ;;
  pick_rot <- py_getitem obj_data "pickRotation" ;;
  pick_trans <- py_getitem obj_data "pickTranslation" ;;
  place_rot <- py_getitem obj_data "placeRotation" ;;
  place_trans <- py_getitem obj_data "placeTranslation" ;;
  Obj_add_obj_info w id pick_rot pick_trans place_rot place_trans.

Definition Scene_add_objects (w : world) (scene_file : string)
    (scene_number : Z) : res Scene :=
  data <- json_load w scene_file ;;
  items <- py_iter data ;;
  objs <- mapM (load_obj w) items ;;
  Ok {| scene_num := scene_number;
        initial_objs := [];
        objs_info := objs;
        cam_traj := [] |}.

Definition Participant_add_objects (w : world) (part_files : list string)
    (part_scene_nums : list identity) : res Participant :=
  first <- list_get part_scene_nums 0 ;;
  pn <- tuple_get first 0 ;;
  new_scenes <- mapM (fun p : identity * string =>
                        sn <- tuple_get p.1 1 ;;
                        Scene_add_objects w p.2 sn)
                     (zip part_scene_nums part_files) ;;
  Ok {| part_num := pn; scenes := new_scenes |}.

(** [BoxED.add_participant], on the list of participants built so far. *)
Definition add_participant (w : world) (parts : list Participant)
    (pick_place_files : list string) (part_scene_nums : list identity)
    : res (list Participant) :=
  new_participant <- Participant_add_objects w pick_place_files part_scene_nums ;;
  Ok (parts ++ [new_participant]).

(** [part_scene_nums[k][0]] *)
Definition part_at (part_scene_nums : list identity) (k : nat) : res Z :=
  t <- list_get part_scene_nums k ;; tuple_get t 0.

(** One turn of the loop of [load_pick_place]: the state is [start_idx] and
    the participants added so far.  The loop runs only when the list is not
    empty, so [len(part_scene_nums) - 1] is not negative. *)
Definition pick_place_step (w : world) (pickplace_files : list string)
    (part_scene_nums : list identity) (st : nat * list Participant) (i : nat)
    : res (nat * list Participant) :=
  let last_i := (length part_scene_nums - 1)%nat in
  a <- part_at part_scene_nums st.1 ;;
  b <- part_at part_scene_nums i ;;
  st1 <- (if negb (a =? b) then
            parts <- add_participant w st.2
                       (slice st.1 i pickplace_files)
                       (slice st.1 i part_scene_nums) ;;
            Ok (i, parts)
          else if (a =? b) && (i =? last_i)%nat then
            parts <- add_participant w st.2
                       (slice st.1 (i + 1) pickplace_files)
                       (slice st.1 (i + 1) part_scene_nums) ;;
            Ok (st.1, parts)
          else Ok st) ;;
  if (i =? last_i)%nat then
    a' <- part_at part_scene_nums st1.1 ;;
    b' <- part_at part_scene_nums i ;;
    if negb (a' =? b') then
      file <- list_get pickplace_files i ;;
      nums <- list_get part_scene_nums i ;;
      parts <- add_participant w st1.2 [file] [nums] ;;
      Ok (st1.1, parts)
    else Ok st1
  else Ok st1.

(** The loop of [load_pick_place] on the lists that the crawler returned. *)
Definition group_participants (w : world) (pickplace_files : list string)
    (part_scene_nums : list identity) : res (list Participant) :=
  st <- foldM (pick_place_step w pickplace_files part_scene_nums) (0%nat, [])
          (seq 0 (length part_scene_nums)) ;;
  Ok st.2.

Definition load_pick_place (w : world) (root : string) : res (list Participant) :=
  f <- file_crawler w root "PickPlace_dataset" false ;;
  group_participants w f.1 f.2.

(** ** boxed_importer.py: loading the trajectories *)

(** [PoseWithTime(d['rotation'], d['translation'], d['timeStamp'])] *)
Definition pose_of_item (w : world) (pose_time : json) : res PoseWithTime :=
  r <- py_getitem pose_time "rotation" ;;
  t <- py_getitem pose_time "translation" ;;
  ts <- py_getitem pose_time "timeStamp" ;;
  PoseWithTime_init w r t ts.

(** The poses that [ObjWithTraj.add_traj] reads from [traj_file]. *)
Definition read_traj (w : world) (traj_file : string) : res (list PoseWithTime) :=
  data <- json_load w traj_file ;;
  items <- py_iter data ;;
  mapM (pose_of_item w) items.

Definition set_trajectory (obj : ObjWithTraj) (t : list PoseWithTime) : ObjWithTraj :=
  {| name := name obj; unique_id := unique_id obj; pick_pose := pick_pose obj;
     place_pose := place_pose obj; trajectory := t |}.

Definition ObjWithTraj_add_traj (w : world) (obj : ObjWithTraj)
    (traj_file : string) : res ObjWithTraj :=
  poses <- read_traj w traj_file ;;
  Ok (set_trajectory obj (trajectory obj ++ poses)).

(** The inner loop of [Scene.add_obj_traj]: the first file whose path
    contains the name of the object is loaded, and the loop stops there. *)
Definition add_obj_traj_one (w : world) (scene_files : list string)
    (obj : ObjWithTraj) : res ObjWithTraj :=
  match List.find (fun file => str_in (name obj) file) scene_files with
  | Some file => ObjWithTraj_add_traj w obj file
  | None => Ok obj
  end.

Definition set_objs_info (scene : Scene) (objs : list ObjWithTraj) : Scene :=
  {| scene_num := scene_num scene; initial_objs := initial_objs scene;
     objs_info := objs; cam_traj := cam_traj scene |}.

Definition set_cam_traj (scene : Scene) (t : list PoseWithTime) : Scene :=
  {| scene_num := scene_num scene; initial_objs := initial_objs scene;
     objs_info := objs_info scene; cam_traj := t |}.

Definition Scene_add_obj_traj (w : world) (scene : Scene)
    (scene_files : list string) : res Scene :=
  objs <- mapM (add_obj_traj_one w scene_files) (objs_info scene) ;;
  Ok (set_objs_info scene objs).

(** [PoseWithTime(c.rotation, c.translation, c.timeStamp)] *)
Definition cam_pose_of_item (w : world) (cam_pose_time : json)
    : res PoseWithTime :=
  r <- py_getattr cam_pose_time "rotation" ;;
  t <- py_getattr cam_pose_time "translation" ;;
  ts <- py_getattr cam_pose_time "timeStamp" ;;
  PoseWithTime_init w r t ts.

Definition Scene_add_cam_traj (w : world) (scene : Scene)
    (cam_traj_file : string) : res Scene :=
  data <- json_load w cam_traj_file ;;
  items <- py_iter data ;;
  poses <- mapM (cam_pose_of_item w) items ;;
  Ok (set_cam_traj scene (cam_traj scene ++ poses)).

(** [[i for (i, v) in zip(l, mask) if v]] *)
Definition select {A : Type} (l : list A) (mask : list bool) : list A :=
  map fst (List.filter snd (zip l mask)).

(** [l.index(x)] on a list of tuples *)
Fixpoint index_of (x : identity) (l : list identity) : res nat :=
  match l with
  | [] => Raise ValueError
  | y :: l' => if tuple_eqb y x then Ok 0%nat
               else k <- index_of x l' ;; Ok (S k)
  end.

(** The files of the scene, among the object trajectory files of the
    participant: [aux_scene_nums == scene.scene_num] is a comparison of
    numpy, component by component. *)
Definition files_of_scene (w : world) (part_files : list string)
    (aux_scene_nums : list Z) (scene : Scene) : list string :=
  select part_files (np_equal w aux_scene_nums (scene_num scene)).

(** The body of the loop of [Participant.add_trajectories]; [cam] is [None]
    when the camera arguments are left at their default. *)
Definition add_trajectories_scene (w : world) (pn : Z)
    (part_files : list string) (aux_scene_nums : list Z)
    (cam : option (list string * list identity)) (scene : Scene) : res Scene :=
  let scene_files := files_of_scene w part_files aux_scene_nums scene in
  scene1 <- Scene_add_obj_traj w scene scene_files ;;
  match cam with
  | None => Ok scene1
  | Some (cam_part_files, cam_part_scene_nums) =>
      k <- index_of [pn; scene_num scene1] cam_part_scene_nums ;;
      file <- list_get cam_part_files k ;;
      Scene_add_cam_traj w scene1 file
  end.

Definition Participant_add_trajectories (w : world) (part : Participant)
    (part_files : list string) (part_scene_nums : list identity)
    (cam : option (list string * list identity)) : res Participant :=
  aux_scene_nums <- mapM (fun x => tuple_get x 1) part_scene_nums ;;
  new_scenes <- mapM (add_trajectories_scene w (part_num part) part_files
                        aux_scene_nums cam) (scenes part) ;;
  Ok {| part_num := part_num part; scenes := new_scenes |}.

(** [enumerate(l)] *)
Definition enumerate {A : Type} (l : list A) : list (nat * A) :=
  zip (seq 0 (length l)) l.

(** The camera files of a participant, their numbers, and their positions
    in the lists of the participant. *)
Definition camera_hits (part_files : list string) (part_nums : list identity)
    : list (nat * (string * identity)) :=
  List.filter (fun h : nat * (string * identity) =>
                 str_in "main_camera_trajectory" h.2.1)
              (enumerate (zip part_files part_nums)).

(** [a > b] on positions: the comparison of [sorted(..., reverse=True)]. *)
Definition gtb (a b : nat) : bool := (b <? a)%nat.

(** [for index in sorted(pop_idxs, reverse=True): del nums[index]; del
    files[index]].  Every index is a position of the list. *)
Definition pop_all (pop_idxs : list nat) (fn : list string * list identity)
    : list string * list identity :=
  foldl (fun acc index => (delete index acc.1, delete index acc.2)) fn
        (py_sorted gtb pop_idxs).

(** The body of the loop of [load_trajectories]. *)
Definition load_trajectories_part (w : world) (load_cam : bool)
    (trajectory_files : list string) (part_scene_nums : list identity)
    (aux_part_nums : list Z) (part : Participant) : res Participant :=
  let mask := np_equal w aux_part_nums (part_num part) in
  let part_files := select trajectory_files mask in
  let part_nums := select part_scene_nums mask in
  let hits := camera_hits part_files part_nums in
  let cam_part_files := map (fun h : nat * (string * identity) => h.2.1) hits in
  let cam_part_nums := map (fun h : nat * (string * identity) => h.2.2) hits in
  let rest := pop_all (map fst hits) (part_files, part_nums) in
  if load_cam then
    Participant_add_trajectories w part rest.1 rest.2
      (Some (cam_part_files, cam_part_nums))
  else
    Participant_add_trajectories w part rest.1 rest.2 None.

Definition load_trajectories (w : world) (root : string) (load_cam : bool)
    (parts : list Participant) : res (list Participant) :=
  f <- file_crawler w root "trajectory" false ;;
  aux_part_nums <- mapM (fun x => tuple_get x 0) f.2 ;;
  mapM (load_trajectories_part w load_cam f.1 f.2 aux_part_nums) parts.

(** [BoxED.__init__]; [root] is [None] when no folder is given. *)
Definition BoxED_init (w : world) (root : option string) (load_cam : bool)
    : res BoxED :=
  match root with
  | None => Raise (SystemExit 1)
  | Some folder =>
      if negb (is_dir w folder) then Raise (SystemExit 1)
      else
        parts <- load_pick_place w folder ;;
        parts' <- load_trajectories w folder load_cam parts ;;
        Ok {| root_folder := folder; load_cam_traj := load_cam;
              participants := parts' |}
  end.

(** ** boxed_importer.py: the queries *)

Definition get_sequences (b : BoxED) (unique_objs_only start_token : bool)
    : list (list string) :=
  flat_map (fun participant =>
    if unique_objs_only && (part_num participant <? UNIQ_OBJS) then []
    else flat_map (fun scene =>
           if unique_objs_only && (2 <=? scene_num scene) then []
           else let scene_seq := map name (objs_info scene) in
                [if start_token then "<start>" :: scene_seq else scene_seq])
         (scenes participant))
    (participants b).

(** [l[-1]] *)
Definition list_get_last {A : Type} (l : list A) : res A :=
  match last l with
  | Some x => Ok x
  | None => Raise IndexError
  end.

(** The integer that a JSON number is; [True] and [False] are 1 and 0. *)
Definition as_int (v : json) : option Z :=
  match v with
  | JInt z => Some z
  | JBool b => Some (if b then 1 else 0)
  | _ => None
  end.

(** [a - b] *)
Definition py_sub (a b : json) : res Z :=
  match as_int a, as_int b with
  | Some x, Some y => Ok (x - y)
  | _, _ => Raise TypeError
  end.

(** [scene.objs_info[-1].trajectory[-1].time_stamp -
     scene.objs_info[0].trajectory[0].time_stamp] *)
Definition scene_duration (scene : Scene) : res Z :=
  last_obj <- list_get_last (objs_info scene) ;;
  last_pose <- list_get_last (trajectory last_obj) ;;
  first_obj <- list_get (objs_info scene) 0 ;;
  first_pose <- list_get (trajectory first_obj) 0 ;;
  py_sub (time_stamp last_pose) (time_stamp first_pose).

Definition get_scene_durations (b : BoxED) : res (list Z) :=
  foldM (fun durations participant =>
           foldM (fun durations' scene =>
                    d <- scene_duration scene ;; Ok (durations' ++ [d]))
                 durations (scenes participant))
        [] (participants b).

(** A Python value passed as [objs]: a [str], a [list], or anything else. *)
Inductive pyval : Type :=
  | PStr (s : string)
  | PList (l : list pyval)
  | POther.

Definition str_mem (s : string) (l : list string) : bool :=
  existsb (String.eqb s) l.

Definition is_str (v : pyval) : bool :=
  match v with PStr _ => true | _ => false end.

(** [elem in BoxED.ALL_OBJS], for an element that may not be a [str] *)
Definition known_obj (v : pyval) : bool :=
  match v with PStr s => str_mem s ALL_OBJS | _ => false end.

Definition strs_of (l : list pyval) : list string :=
  flat_map (fun v => match v with PStr s => [s] | _ => [] end) l.

(** The first half of [get_grasp_poses]: the checks of the arguments, which
    give [target_objs] or log an error and call [exit(1)]. *)
Definition grasp_targets (grasp_type : string) (objs : pyval)
    : list string * res (list string) :=
  if negb (str_mem grasp_type ["pick"; "place"]) then
    (["grasp_type argument must be either 'pick' or 'place'."],
     Raise (SystemExit 1))
  else
    match objs with
    | PStr s =>
        if String.eqb s "all" then ([], Ok ALL_OBJS)
        else if str_mem s ALL_OBJS then ([], Ok [s])
        else (["Specified object name is invalid. Check BoxED.All_OBJS for the list of all objects."],
              Raise (SystemExit 1))
    | PList l =>
        if forallb is_str l then
          if forallb known_obj l then ([], Ok (strs_of l))
          else (["At least one of the specified objects is invalid. Check BoxED.All_OBJS for the list of all objects."],
                Raise (SystemExit 1))
        else (["objs must be either: 'all' for all the objects, a list of object names or an object name."],
              Raise (SystemExit 1))
    | POther =>
        (["objs must be either: 'all' for all the objects, a list of object names or an object name."],
         Raise (SystemExit 1))
    end.

(** The body of the innermost loop of [get_grasp_poses]. *)
Definition add_grasp (grasp_type : string) (target_objs : list string)
    (grasp_poses : gmap string (list Pose)) (obj : ObjWithTraj)
    : gmap string (list Pose) :=
  if str_mem (name obj) target_objs then
    let p := if String.eqb grasp_type "pick" then pick_pose obj
             else place_pose obj in
    match grasp_poses !! name obj with
    | None => <[name obj := [p]]> grasp_poses
    | Some ps => <[name obj := ps ++ [p]]> grasp_poses
    end
  else grasp_poses.

(** [get_grasp_poses]: the lines logged, and the dictionary or the
    exception. *)
Definition get_grasp_poses (b : BoxED) (grasp_type : string) (objs : pyval)
    : list string * res (gmap string (list Pose)) :=
  let checked := grasp_targets grasp_type objs in
  (checked.1,
   target_objs <- checked.2 ;;
   Ok (foldl (fun acc participant =>
         foldl (fun acc' scene =>
                  foldl (add_grasp grasp_type target_objs) acc' (objs_info scene))
               acc (scenes participant))
       ∅ (participants b))).

(** ** Relations and statements used by the properties *)

(** A comparison [<] that is a strict total order. *)
Class StrictTotal {A : Type} (ltb : A -> A -> bool) : Prop := {
  ltb_irrefl : forall x, ltb x x = false;
  ltb_trans : forall x y z, ltb x y = true -> ltb y z = true -> ltb x z = true;
  ltb_connected : forall x y, ltb x y = false -> ltb y x = false -> x = y
}.

(** The entries of the files of one folder whose name contains the target,
    in the order of the walk. *)
Definition matches_in (target_filename : string) (d : string * list string)
    : list entry :=
  map (fun nm => (part_scene_number d.1, path_join d.1 nm))
      (List.filter (str_in target_filename) d.2).

(** The entry of every file below the root whose name contains the target,
    in discovery order. *)
Definition all_matches (w : world) (root target_filename : string) : list entry :=
  flat_map (matches_in target_filename) (os_walk w root).

(** An ordering of the entries by identity alone, in which entries of equal
    identity keep their discovery order: what a stable sort on the identity
    gives. *)
Definition sorted_by_identity (es : list entry) : list entry :=
  py_sorted (fun e1 e2 => tuple_ltb e1.1 e2.1) es.

(** [np.asarray] on the nested lists of the examples: the shape of a nested
    list, when all the lists of one depth have the same length, and the
    [ValueError] of numpy for a ragged one.  The array of a list of numbers
    holds the same numbers.  The participant and scene numbers of the
    examples fit 64 bits, so that [np_equal_wide] is never asked there. *)
Fixpoint shape (v : json) : option (list nat) :=
  match v with
  | JArr l =>
      match map shape l with
      | [] => Some [0%nat]
      | Some d :: rest =>
          if forallb (fun o => bool_decide (o = Some d)) rest
          then Some (length l :: d) else None
      | None :: _ => None
      end
  | _ => Some []
  end.

Definition asarray (v : json) : res json :=
  match shape v with
  | Some _ => Ok v
  | None => Raise ValueError
  end.

(** A folder with two trajectory files, enumerated as [b] then [a]. *)
Definition world_two_files : world :=
  {| np_asarray := asarray;
     np_equal_wide := fun _ n x => x =? n;
     is_dir := fun _ => true;
     os_walk := fun _ => [("data/P1/S1", ["b_trajectory.json"; "a_trajectory.json"])];
     json_load := fun _ => Ok (JArr []) |}.

(** A pick and place file in a folder whose path has no digit. *)
Definition world_no_digits : world :=
  {| np_asarray := asarray;
     np_equal_wide := fun _ n x => x =? n;
     is_dir := fun _ => true;
     os_walk := fun _ => [("data", ["PickPlace_dataset.json"])];
     json_load := fun _ => Ok (JArr []) |}.

(** [x] may stand before [y] in a list sorted with the comparison [ltb]. *)
Definition le_of {A : Type} (ltb : A -> A -> bool) (x y : A) : Prop :=
  ltb y x = false.

(** The scenes of the dataset, participant by participant, in the order in
    which the queries visit them. *)
Definition all_scenes (b : BoxED) : list Scene :=
  flat_map scenes (participants b).

(** The duration of a scene as the time between two samples: the first
    sample of the first object and the last sample of the last object, both
    with integer time stamps. *)
Definition spans (scene : Scene) (d : Z) : Prop :=
  exists first_obj last_obj first_pose last_pose t0 t1,
    head (objs_info scene) = Some first_obj /\
    last (objs_info scene) = Some last_obj /\
    head (trajectory first_obj) = Some first_pose /\
    last (trajectory last_obj) = Some last_pose /\
    as_int (time_stamp first_pose) = Some t0 /\
    as_int (time_stamp last_pose) = Some t1 /\
    d = t1 - t0.

(** The first or the last object of the scene has no sample. *)
Definition endpoint_without_samples (scene : Scene) : Prop :=
  exists first_obj last_obj,
    head (objs_info scene) = Some first_obj /\
    last (objs_info scene) = Some last_obj /\
    (trajectory first_obj = [] \/ trajectory last_obj = []).

(** Every time stamp of the dataset is an integer. *)
Definition int_stamps (b : BoxED) : Prop :=
  forall scene obj p, scene ∈ all_scenes b -> obj ∈ objs_info scene ->
    p ∈ trajectory obj -> is_Some (as_int (time_stamp p)).

(** The arguments that [get_grasp_poses] is not meant to accept: a grasp type
    other than [pick] and [place], a name that is neither [all] nor in the
    catalogue, a list with an element that is not a name of the catalogue, or
    a value that is neither a string nor a list. *)
Definition invalid_grasp_args (grasp_type : string) (objs : pyval) : Prop :=
  (grasp_type <> "pick" /\ grasp_type <> "place") \/
  match objs with
  | PStr s => s <> "all" /\ str_mem s ALL_OBJS = false
  | PList l => exists v, v ∈ l /\ known_obj v = false
  | POther => True
  end.

(** An outcome that ends the call and leaves the program running: an
    exception other than [SystemExit]. *)
Definition aborts_call_only {A : Type} (r : res A) : Prop :=
  exists e, r = Raise e /\ is_exit e = false.

Definition pose0 : Pose := {| rotation := JArr []; translation := JArr [] |}.

Definition sample (t : Z) : PoseWithTime :=
  {| pose := pose0; time_stamp := JInt t |}.

Definition obj_with (nm : string) (t : list PoseWithTime) : ObjWithTraj :=
  {| name := nm; unique_id := 0; pick_pose := pose0; place_pose := pose0;
     trajectory := t |}.

(** One scene whose first object is sampled at 100 and 500 and whose last
    object is sampled at 50 and 900. *)
Definition dataset_two_objects : BoxED :=
  {| root_folder := "data"; load_cam_traj := false;
     participants :=
       [{| part_num := 1;
           scenes := [{| scene_num := 1; initial_objs := [];
                         objs_info := [obj_with "011 banana" [sample 100; sample 500];
                                       obj_with "013 apple" [sample 50; sample 900]];
                         cam_traj := [] |}] |}] |}.

(** One scene whose last object has no sample. *)
Definition dataset_missing_trajectory : BoxED :=
  {| root_folder := "data"; load_cam_traj := false;
     participants :=
       [{| part_num := 1;
           scenes := [{| scene_num := 1; initial_objs := [];
                         objs_info := [obj_with "011 banana" [sample 100; sample 500];
                                       obj_with "013 apple" []];
                         cam_traj := [] |}] |}] |}.

(** A record of a pick and place file, and a record of a trajectory file. *)
Definition pick_place_record (id : string) : json :=
  JObj [("id", JStr id);
        ("pickRotation", JArr [JArr [JInt 1; JInt 0; JInt 0];
                               JArr [JInt 0; JInt 1; JInt 0];
                               JArr [JInt 0; JInt 0; JInt 1]]);
        ("pickTranslation", JArr [JInt 0; JInt 0; JInt 0]);
        ("placeRotation", JArr [JArr [JInt 1; JInt 0; JInt 0];
                                JArr [JInt 0; JInt 1; JInt 0];
                                JArr [JInt 0; JInt 0; JInt 1]]);
        ("placeTranslation", JArr [JInt 0; JInt 0; JInt 5])].

Definition trajectory_record (t : Z) : json :=
  JObj [("rotation", JArr []); ("translation", JArr []); ("timeStamp", JInt t)].

(** Two participants with one scene each: the files that the crawler
    returns are sorted, and the second participant is a run of one file at
    the end of the list. *)
Definition world_two_participants : world :=
  {| np_asarray := asarray;
     np_equal_wide := fun _ n x => x =? n;
     is_dir := fun _ => true;
     os_walk := fun _ => [("data/P1/S1", ["PickPlace_dataset.json"]);
                          ("data/P2/S1", ["PickPlace_dataset.json"])];
     json_load := fun _ => Ok (JArr [pick_place_record "011 banana(clone)-0012"]) |}.

(** One participant and one scene, with a pick and place file, the trajectory
    of its object and a camera trajectory. *)
Definition world_with_camera : world :=
  {| np_asarray := asarray;
     np_equal_wide := fun _ n x => x =? n;
     is_dir := fun _ => true;
     os_walk := fun _ => [("data/P1/S1", ["PickPlace_dataset.json";
                                          "011 banana_trajectory.json";
                                          "main_camera_trajectory.json"])];
     json_load := fun file =>
       if str_in "PickPlace_dataset" file
       then Ok (JArr [pick_place_record "011 banana(clone)-0012"])
       else if str_in "main_camera_trajectory" file
       then Ok (JArr [trajectory_record 0; trajectory_record 40])
       else Ok (JArr [trajectory_record 100; trajectory_record 500]) |}.

(** The object trajectory files of a participant that lie in the scene
    numbered [sn]: [aux_scene_nums] holds the scene number of each file. *)
Definition scene_pool (part_files : list string) (aux_scene_nums : list Z)
    (sn : Z) : list string :=
  map fst (List.filter (fun p : string * Z => p.2 =? sn)
                       (zip part_files aux_scene_nums)).

(** [obj'] is [obj] after the first file of [pool] whose path contains its
    name has been read into its trajectory; no file of the pool is used up. *)
Definition first_match_attached (w : world) (pool : list string)
    (obj obj' : ObjWithTraj) : Prop :=
  name obj' = name obj /\
  match List.find (fun file => str_in (name obj) file) pool with
  | Some file => exists poses, read_traj w file = Ok poses /\
                               trajectory obj' = trajectory obj ++ poses
  | None => trajectory obj' = trajectory obj
  end.

(** The last component of a path. *)
Fixpoint basename (p : string) : string :=
  match p with
  | EmptyString => EmptyString
  | String c p' => if str_in "/" p' then basename p'
                   else if Ascii.eqb c "/" then p' else p
  end.

(** The file from which an object would get its trajectory if every object
    trajectory file of its participant were a candidate: the first one whose
    file name contains the name of the object. *)
Definition first_match_of_participant (part_files : list string)
    (obj_name : string) : option string :=
  List.find (fun file => str_in obj_name (basename file)) part_files.

(** A participant whose only pick and place file is in scene 1 and whose
    only trajectory file is in the folder of scene 2. *)
Definition world_other_scene : world :=
  {| np_asarray := asarray;
     np_equal_wide := fun _ n x => x =? n;
     is_dir := fun _ => true;
     os_walk := fun _ => [("data/P1/S1", ["PickPlace_dataset.json"]);
                          ("data/P1/S2", ["011 banana_trajectory.json"])];
     json_load := fun file =>
       if str_in "PickPlace_dataset" file
       then Ok (JArr [pick_place_record "011 banana(clone)-0012"])
       else Ok (JArr [trajectory_record 100; trajectory_record 500]) |}.

(** A scene with the objects [big box] and [box], each with a trajectory
    file of its own. *)
Definition world_shared_file : world :=
  {| np_asarray := asarray;
     np_equal_wide := fun _ n x => x =? n;
     is_dir := fun _ => true;
     os_walk := fun _ => [("data/P1/S1", ["PickPlace_dataset.json";
                                          "box_trajectory.json";
                                          "big box_trajectory.json"])];
     json_load := fun file =>
       if str_in "PickPlace_dataset" file
       then Ok (JArr [pick_place_record "big box(clone)-0001";
                      pick_place_record "box(clone)-0002"])
       else if str_in "big box" file
       then Ok (JArr [trajectory_record 1; trajectory_record 2])
       else Ok (JArr [trajectory_record 7; trajectory_record 8]) |}.

(** The participant of [world_with_camera] before and after its
    trajectories are loaded. *)
Definition participant_banana (t : list PoseWithTime) : Participant :=
  {| part_num := 1;
     scenes := [{| scene_num := 1; initial_objs := [];
                   objs_info := [obj_with "011 banana" t];
                   cam_traj := [] |}] |}.

(** One turn of the loop of [load_pick_place] without its third test. *)
Definition pick_place_step_two_tests (w : world) (pickplace_files : list string)
    (part_scene_nums : list identity) (st : nat * list Participant) (i : nat)
    : res (nat * list Participant) :=
  let last_i := (length part_scene_nums - 1)%nat in
  a <- part_at part_scene_nums st.1 ;;
  b <- part_at part_scene_nums i ;;
  if negb (a =? b) then
    parts <- add_participant w st.2
               (slice st.1 i pickplace_files)
               (slice st.1 i part_scene_nums) ;;
    Ok (i, parts)
  else if (a =? b) && (i =? last_i)%nat then
    parts <- add_participant w st.2
               (slice st.1 (i + 1) pickplace_files)
               (slice st.1 (i + 1) part_scene_nums) ;;
    Ok (st.1, parts)
  else Ok st.


(** The test of [uniq_seqs] on a tuple with at least two components: the
    scene is the first one and the participant is not below 26. *)
Definition keeps_unique (id : identity) : bool :=
  match id with
  | part :: scene :: _ => (scene =? 1) && negb (part <? 26)
  | _ => false
  end.

(** Every character of the string is a decimal digit. *)
Definition all_digits (s : string) : bool :=
  forallb is_digit (list_ascii_of_string s).

(** No character of the string is a decimal digit. *)
Definition no_digit (s : string) : bool :=
  forallb (fun c => negb (is_digit c)) (list_ascii_of_string s).

(** Participants 25, 26 and 27, the second one with two scenes. *)
Definition world_unique : world :=
  {| np_asarray := asarray;
     np_equal_wide := fun _ n x => x =? n;
     is_dir := fun _ => true;
     os_walk := fun _ => [("data/P25/S1", ["PickPlace_dataset.json"]);
                          ("data/P26/S1", ["PickPlace_dataset.json"]);
                          ("data/P26/S2", ["PickPlace_dataset.json"]);
                          ("data/P27/S1", ["PickPlace_dataset.json"])];
     json_load := fun _ => Ok (JArr [pick_place_record "011 banana(clone)-0012"]) |}.

(** The objects of the dataset in the order of the queries: participant by
    participant, scene by scene, in packing order. *)
Definition all_objs (b : BoxED) : list ObjWithTraj :=
  flat_map objs_info (all_scenes b).

(** The pose of an object that a grasp type selects. *)
Definition grasp_of (grasp_type : string) (obj : ObjWithTraj) : Pose :=
  if String.eqb grasp_type "pick" then pick_pose obj else place_pose obj.

(** The selected poses of the objects called [nm], in the order of the
    list. *)
Definition poses_named (grasp_type nm : string) (objs : list ObjWithTraj)
    : list Pose :=
  map (grasp_of grasp_type)
      (List.filter (fun obj => String.eqb (name obj) nm) objs).

(** The dataset restricted to the first scenes of the participants numbered
    [UNIQ_OBJS] or more. *)
Definition unique_part (b : BoxED) : BoxED :=
  {| root_folder := root_folder b;
     load_cam_traj := load_cam_traj b;
     participants :=
       map (fun p => {| part_num := part_num p;
                        scenes := List.filter (fun s => scene_num s <? 2) (scenes p) |})
           (List.filter (fun p => UNIQ_OBJS <=? part_num p) (participants b)) |}.

(** [obj] is the object that [Scene.add_objects] builds from the record
    [item] of a pick and place file. *)
Definition loaded_from (w : world) (item : json) (obj : ObjWithTraj) : Prop :=
  exists raw pick_rot pick_trans place_rot place_trans,
    py_getitem item "id" = Ok (JStr raw) /\
    name obj = get_clean_name raw /\
    py_int (slice_last 4 raw) = Ok (unique_id obj) /\
    py_getitem item "pickRotation" = Ok pick_rot /\
    py_getitem item "pickTranslation" = Ok pick_trans /\
    py_getitem item "placeRotation" = Ok place_rot /\
    py_getitem item "placeTranslation" = Ok place_trans /\
    np_asarray w pick_rot = Ok (rotation (pick_pose obj)) /\
    np_asarray w pick_trans = Ok (translation (pick_pose obj)) /\
    np_asarray w place_rot = Ok (rotation (place_pose obj)) /\
    np_asarray w place_trans = Ok (translation (place_pose obj)) /\
    trajectory obj = [].

(** [p] is the sample that [add_traj] builds from the record [item] of a
    trajectory file. *)
Definition sampled_from (w : world) (item : json) (p : PoseWithTime) : Prop :=
  exists rot trans,
    py_getitem item "rotation" = Ok rot /\
    py_getitem item "translation" = Ok trans /\
    py_getitem item "timeStamp" = Ok (time_stamp p) /\
    np_asarray w rot = Ok (rotation (pose p)) /\
    np_asarray w trans = Ok (translation (pose p)).

(** The keys that a record of a pick and place file must have. *)
Definition pick_place_keys : list string :=
  ["id"; "pickRotation"; "pickTranslation"; "placeRotation"; "placeTranslation"].

(** The participant and scene numbers of the scenes of a list of
    participants, in order. *)
Definition part_scene_pairs (parts : list Participant) : list (Z * Z) :=
  flat_map (fun p => map (fun s => (part_num p, scene_num s)) (scenes p)) parts.

(** The tuple [id] begins with the participant and scene numbers [ps]. *)
Definition numbered (id : identity) (ps : Z * Z) : Prop :=
  id !! 0%nat = Some ps.1 /\ id !! 1%nat = Some ps.2.

(** The last tuple of the list belongs to another participant than the tuple
    before it. *)
Definition drops_last (part_scene_nums : list identity) : bool :=
  match part_at part_scene_nums (length part_scene_nums - 2),
        part_at part_scene_nums (length part_scene_nums - 1) with
  | Ok a, Ok b => (2 <=? length part_scene_nums)%nat && negb (a =? b)
  | _, _ => false
  end.

(** No two neighbours of the list are equal. *)
Definition adjacent_differ (l : list Z) : Prop :=
  forall (i : nat) (a b : Z), l !! i = Some a -> l !! S i = Some b -> a <> b.

(** Three participants: two files, one file, two files. *)
Definition world_three_participants : world :=
  {| np_asarray := asarray;
     np_equal_wide := fun _ n x => x =? n;
     is_dir := fun _ => true;
     os_walk := fun _ => [("data/P1/S1", ["PickPlace_dataset.json"]);
                          ("data/P1/S2", ["PickPlace_dataset.json"]);
                          ("data/P2/S1", ["PickPlace_dataset.json"]);
                          ("data/P3/S1", ["PickPlace_dataset.json"]);
                          ("data/P3/S2", ["PickPlace_dataset.json"])];
     json_load := fun _ => Ok (JArr [pick_place_record "011 banana(clone)-0012"]) |}.

(** The participants that [load_pick_place] builds on
    [world_three_participants]. *)
Definition three_participants : list Participant :=
  Eval vm_compute in
    match load_pick_place world_three_participants "data" with
    | Ok parts => parts
    | Raise _ => []
    end.

(** [obj'] is [obj] with a longer trajectory and nothing else changed. *)
Definition same_but_trajectory (obj obj' : ObjWithTraj) : Prop :=
  name obj' = name obj /\ unique_id obj' = unique_id obj /\
  pick_pose obj' = pick_pose obj /\ place_pose obj' = place_pose obj /\
  exists extra, trajectory obj' = trajectory obj ++ extra.

(** [p'] has the number, the scenes and the objects of [p]; only
    trajectories have grown. *)
Definition same_structure (p p' : Participant) : Prop :=
  part_num p' = part_num p /\
  Forall2 (fun s s' => scene_num s' = scene_num s /\
                       initial_objs s' = initial_objs s /\
                       cam_traj s' = cam_traj s /\
                       Forall2 same_but_trajectory (objs_info s) (objs_info s'))
          (scenes p) (scenes p').

(** A folder with one trajectory file and no pick and place file. *)
Definition world_no_pick_place : world :=
  {| np_asarray := asarray;
     np_equal_wide := fun _ n x => x =? n;
     is_dir := fun _ => true;
     os_walk := fun _ => [("data/P1/S1", ["011 banana_trajectory.json"])];
     json_load := fun _ => Ok (JArr [trajectory_record 100]) |}.

(** The dataset that [BoxED.__init__] builds on [world_with_camera] without
    camera trajectories. *)
Definition dataset_with_camera : BoxED :=
  Eval vm_compute in
    match BoxED_init world_with_camera (Some "data") false with
    | Ok b => b
    | Raise _ => {| root_folder := ""; load_cam_traj := false; participants := [] |}
    end.

(** * Properties *)

(** ** The result monad *)

Lemma bind_Ok {A B : Type} (m : res A) (k : A -> res B) (b : B) :
  bind m k = Ok b -> exists a, m = Ok a /\ k a = Ok b.
Proof. destruct m as [a|e]; simpl; [eauto | discriminate]. Qed.

Lemma mapM_Ok_Forall2 {A B : Type} (f : A -> res B) (l : list A) (l' : list B) :
  mapM f l = Ok l' <-> Forall2 (fun x y => f x = Ok y) l l'.
Proof.
  revert l'. induction l as [|x l IH]; intros l'; simpl.
  - split; [intros [= <-]; constructor | intros H; inversion H; reflexivity].
  - split.
    + intros H. apply bind_Ok in H as (y & Hy & H).
      apply bind_Ok in H as (ys & Hys & [= <-]).
      constructor; [exact Hy | apply IH, Hys].
    + intros H. inversion H as [|? y ? ys Hy Hys]; subst.
      rewrite Hy. simpl. apply IH in Hys. rewrite Hys. reflexivity.
Qed.

Lemma mapM_pure {A B : Type} (f : A -> res B) (g : A -> B) (l : list A) :
  (forall x, f x = Ok (g x)) -> mapM f l = Ok (map g l).
Proof.
  intros H. induction l as [|x l IH]; simpl; [reflexivity|].
  rewrite H. simpl. rewrite IH. reflexivity.
Qed.

(** ** Sorting with a strict total order *)

Section SortedFacts.
Context {A : Type} (ltb : A -> A -> bool) `{!StrictTotal ltb}.

Lemma ltb_asym x y : ltb x y = true -> ltb y x = false.
Proof.
  intros Hxy. destruct (ltb y x) eqn:Hyx; [|reflexivity].
  rewrite <- (ltb_irrefl (ltb:=ltb) x). symmetry. eapply ltb_trans; eassumption.
Qed.

Lemma le_of_trans : Transitive (le_of ltb).
Proof.
  unfold le_of. intros x y z Hxy Hyz.
  destruct (ltb z x) eqn:Hzx; [|reflexivity]. exfalso.
  destruct (ltb x y) eqn:Hlt.
  - rewrite (ltb_trans (ltb:=ltb) _ _ _ Hzx Hlt) in Hyz. discriminate.
  - assert (x = y) by (apply ltb_connected; assumption). subst.
    rewrite Hzx in Hyz. discriminate.
Qed.

Lemma le_of_antisym : AntiSymm (=) (le_of ltb).
Proof. unfold le_of. intros x y Hxy Hyx. apply ltb_connected; assumption. Qed.

Lemma insert_sorted_perm x l : insert_sorted ltb x l ≡ₚ x :: l.
Proof.
  induction l as [|y l IH]; simpl; [reflexivity|].
  destruct (ltb y x); [|reflexivity].
  rewrite IH. apply Permutation_swap.
Qed.

Lemma py_sorted_perm l : py_sorted ltb l ≡ₚ l.
Proof.
  induction l as [|x l IH]; simpl; [reflexivity|].
  unfold py_sorted in *. simpl. rewrite insert_sorted_perm, IH. reflexivity.
Qed.

Lemma insert_sorted_HdRel a x l :
  le_of ltb a x -> HdRel (le_of ltb) a l -> HdRel (le_of ltb) a (insert_sorted ltb x l).
Proof.
  intros Hax Hl. destruct l as [|y l]; simpl; [constructor; exact Hax|].
  destruct (ltb y x); constructor; [|exact Hax].
  inversion Hl; assumption.
Qed.

Lemma insert_sorted_Sorted x l :
  Sorted (le_of ltb) l -> Sorted (le_of ltb) (insert_sorted ltb x l).
Proof.
  induction 1 as [|y l Hl IH Hy]; simpl; [repeat constructor|].
  destruct (ltb y x) eqn:Hyx.
  - constructor; [exact IH|].
    apply insert_sorted_HdRel; [|exact Hy].
    unfold le_of. apply ltb_asym, Hyx.
  - constructor; [constructor; assumption|]. constructor. exact Hyx.
Qed.

Lemma py_sorted_Sorted l : Sorted (le_of ltb) (py_sorted ltb l).
Proof.
  induction l as [|x l IH]; [constructor|].
  unfold py_sorted in *. simpl. apply insert_sorted_Sorted, IH.
Qed.

Lemma py_sorted_StronglySorted l : StronglySorted (le_of ltb) (py_sorted ltb l).
Proof.
  apply (@Sorted_StronglySorted _ _ le_of_trans), py_sorted_Sorted.
Qed.

Lemma Sorted_le_of_unique l1 l2 :
  Sorted (le_of ltb) l1 -> Sorted (le_of ltb) l2 -> l1 ≡ₚ l2 -> l1 = l2.
Proof. apply (@Sorted_unique _ _ le_of_trans le_of_antisym). Qed.

(** The result of [sorted] is determined by the elements of the list, not
    by their order. *)
Lemma py_sorted_order_irrelevant l1 l2 :
  l1 ≡ₚ l2 -> py_sorted ltb l1 = py_sorted ltb l2.
Proof.
  intros H. apply Sorted_le_of_unique; try apply py_sorted_Sorted.
  rewrite !py_sorted_perm. exact H.
Qed.
End SortedFacts.

(** ** The order of tuples, of strings and of entries *)

Lemma tuple_eqb_eq (a b : identity) : tuple_eqb a b = true <-> a = b.
Proof.
  revert b. induction a as [|x a IH]; intros [|y b]; simpl; split;
    try discriminate; try reflexivity.
  - intros H. apply andb_prop in H as [Hx Hab].
    apply Z.eqb_eq in Hx. apply IH in Hab. congruence.
  - intros [= -> ->]. rewrite Z.eqb_refl. simpl. apply IH. reflexivity.
Qed.

Lemma tuple_eqb_refl (a : identity) : tuple_eqb a a = true.
Proof. apply tuple_eqb_eq. reflexivity. Qed.

Lemma tuple_ltb_irrefl (a : identity) : tuple_ltb a a = false.
Proof. induction a as [|x a IH]; simpl; [reflexivity|]. rewrite Z.eqb_refl. exact IH. Qed.

Lemma tuple_ltb_trans (a b c : identity) :
  tuple_ltb a b = true -> tuple_ltb b c = true -> tuple_ltb a c = true.
Proof.
  revert b c. induction a as [|x a IH]; intros [|y b] [|z c]; simpl;
    try discriminate; try reflexivity.
  destruct (Z.eqb_spec x y), (Z.eqb_spec y z), (Z.eqb_spec x z);
    try lia; intros H1 H2; try (eapply IH; eassumption); lia.
Qed.

Lemma tuple_ltb_connected (a b : identity) :
  tuple_ltb a b = false -> tuple_ltb b a = false -> a = b.
Proof.
  revert b. induction a as [|x a IH]; intros [|y b]; simpl;
    try discriminate; try reflexivity.
  destruct (Z.eqb_spec x y), (Z.eqb_spec y x); try lia; intros H1 H2;
    first [f_equal; [assumption | apply IH; assumption] | lia].
Qed.

Lemma string_compare_refl (s : string) : String.compare s s = Eq.
Proof.
  pose proof (String.compare_antisym s s) as H.
  destruct (String.compare s s); simpl in H; congruence.
Qed.

Lemma string_ltb_irrefl (s : string) : String.ltb s s = false.
Proof. unfold String.ltb. rewrite string_compare_refl. reflexivity. Qed.

Lemma string_ltb_leb (s t : string) :
  String.ltb s t = true <-> String.leb s t = true /\ s <> t.
Proof.
  unfold String.ltb, String.leb.
  destruct (String.compare s t) eqn:H; split.
  - discriminate.
  - intros [_ Hne]. apply String.compare_eq_iff in H. contradiction.
  - intros _. split; [reflexivity|]. intros ->.
    rewrite string_compare_refl in H. discriminate.
  - reflexivity.
  - discriminate.
  - intros [? _]. discriminate.
Qed.

Lemma string_ltb_trans (s t u : string) :
  String.ltb s t = true -> String.ltb t u = true -> String.ltb s u = true.
Proof.
  rewrite !string_ltb_leb. intros [Hst Hne] [Htu Hne'].
  assert (Hsu : String.leb s u = true).
  { apply Is_true_true. apply (transitivity (R:=String.le) (y:=t));
      unfold String.le; apply Is_true_true; assumption. }
  split; [exact Hsu|]. intros ->.
  apply Hne. apply String.leb_antisym; assumption.
Qed.

Lemma string_ltb_connected (s t : string) :
  String.ltb s t = false -> String.ltb t s = false -> s = t.
Proof.
  unfold String.ltb. rewrite (String.compare_antisym t s).
  destruct (String.compare s t) eqn:H; simpl; try discriminate.
  intros _ _. apply String.compare_eq_iff, H.
Qed.

Lemma entry_ltb_irrefl (e : entry) : entry_ltb e e = false.
Proof. unfold entry_ltb. rewrite tuple_eqb_refl. apply string_ltb_irrefl. Qed.

Lemma entry_ltb_trans (e1 e2 e3 : entry) :
  entry_ltb e1 e2 = true -> entry_ltb e2 e3 = true -> entry_ltb e1 e3 = true.
Proof.
  destruct e1 as [a p], e2 as [b q], e3 as [c r]. unfold entry_ltb. simpl.
  destruct (tuple_eqb a b) eqn:Hab.
  - apply tuple_eqb_eq in Hab. subst b.
    destruct (tuple_eqb a c) eqn:Hac; [apply string_ltb_trans | auto].
  - destruct (tuple_eqb b c) eqn:Hbc.
    + apply tuple_eqb_eq in Hbc. subst c. rewrite Hab. auto.
    + intros H1 H2. pose proof (tuple_ltb_trans _ _ _ H1 H2) as H.
      destruct (tuple_eqb a c) eqn:Hac; [|exact H].
      apply tuple_eqb_eq in Hac. subst c.
      rewrite tuple_ltb_irrefl in H. discriminate.
Qed.

Lemma entry_ltb_connected (e1 e2 : entry) :
  entry_ltb e1 e2 = false -> entry_ltb e2 e1 = false -> e1 = e2.
Proof.
  destruct e1 as [a p], e2 as [b q]. unfold entry_ltb. simpl.
  destruct (tuple_eqb a b) eqn:Hab.
  - apply tuple_eqb_eq in Hab. subst b. rewrite tuple_eqb_refl.
    intros H1 H2. f_equal. apply string_ltb_connected; assumption.
  - destruct (tuple_eqb b a) eqn:Hba.
    + apply tuple_eqb_eq in Hba. subst b. rewrite tuple_eqb_refl in Hab. discriminate.
    + intros H1 H2. pose proof (tuple_ltb_connected _ _ H1 H2). subst b.
      rewrite tuple_eqb_refl in Hab. discriminate.
Qed.

Instance tuple_ltb_strict : StrictTotal tuple_ltb :=
  {| ltb_irrefl := tuple_ltb_irrefl; ltb_trans := tuple_ltb_trans;
     ltb_connected := tuple_ltb_connected |}.

Instance string_ltb_strict : StrictTotal String.ltb :=
  {| ltb_irrefl := string_ltb_irrefl; ltb_trans := string_ltb_trans;
     ltb_connected := string_ltb_connected |}.

Instance entry_ltb_strict : StrictTotal entry_ltb :=
  {| ltb_irrefl := entry_ltb_irrefl; ltb_trans := entry_ltb_trans;
     ltb_connected := entry_ltb_connected |}.

(** In a list of entries sorted as pairs, the tuples are sorted as tuples. *)
Lemma entry_le_fst (e1 e2 : entry) :
  le_of entry_ltb e1 e2 -> le_of tuple_ltb e1.1 e2.1.
Proof.
  unfold le_of, entry_ltb. destruct (tuple_eqb e2.1 e1.1) eqn:H; [|auto].
  apply tuple_eqb_eq in H. rewrite H. intros _. apply tuple_ltb_irrefl.
Qed.

(** ** [file_crawler] *)

Lemma map_fmap {A B : Type} (f : A -> B) (l : list A) : map f l = f <$> l.
Proof. induction l as [|x l IH]; simpl; [reflexivity | rewrite IH; reflexivity]. Qed.

Lemma zip_map_fst_snd {A B : Type} (l : list (A * B)) :
  zip (map fst l) (map snd l) = l.
Proof. rewrite !map_fmap. apply zip_fst_snd. Qed.

Lemma map_fst_zip {A B : Type} (l : list A) (k : list B) :
  length l = length k -> map fst (zip l k) = l.
Proof. intros H. rewrite map_fmap. apply fst_zip. lia. Qed.

Lemma map_snd_zip {A B : Type} (l : list A) (k : list B) :
  length l = length k -> map snd (zip l k) = k.
Proof. intros H. rewrite map_fmap. apply snd_zip. lia. Qed.

(** Without [uniq_seqs] no file is skipped and nothing is looked up in the
    tuple. *)
Lemma crawl_file_all (target path : string) (acc : found) (nm : string) :
  crawl_file target false path acc nm =
  Ok (if str_in target nm
      then (acc.1 ++ [path_join path nm], acc.2 ++ [part_scene_number path])
      else acc).
Proof. unfold crawl_file. destruct (str_in target nm); reflexivity. Qed.

Lemma crawl_dir_all (target : string) (d : string * list string) (acc : found) :
  crawl_dir target false acc d =
  Ok (acc.1 ++ map snd (matches_in target d), acc.2 ++ map fst (matches_in target d)).
Proof.
  unfold crawl_dir, matches_in. destruct d as [path files]. simpl.
  revert acc. induction files as [|nm files IH]; intros acc; simpl.
  - rewrite !app_nil_r. destruct acc; reflexivity.
  - rewrite crawl_file_all. simpl. rewrite IH.
    destruct (str_in target nm); simpl; [|reflexivity].
    rewrite <- !app_assoc. reflexivity.
Qed.

Lemma crawl_all (w : world) (root target : string) :
  crawl w root target false =
  Ok (map snd (all_matches w root target), map fst (all_matches w root target)).
Proof.
  unfold crawl, all_matches.
  assert (G : forall ds (es : list entry),
    foldM (crawl_dir target false) (map snd es, map fst es) ds =
    Ok (map snd (es ++ flat_map (matches_in target) ds),
        map fst (es ++ flat_map (matches_in target) ds))).
  { induction ds as [|d ds IH]; intros es; simpl.
    - rewrite app_nil_r. reflexivity.
    - rewrite crawl_dir_all. simpl. rewrite <- !map_app, IH, <- app_assoc.
      reflexivity. }
  apply (G _ []).
Qed.

(** Whatever [uniq_seqs] is, the walk collects entries of matching files. *)
Lemma crawl_file_some (target : string) (uniq : bool) (path : string)
    (es : list entry) (nm : string) (c : found) :
  crawl_file target uniq path (map snd es, map fst es) nm = Ok c ->
  exists es', sublist es' (matches_in target (path, [nm])) /\
              c = (map snd (es ++ es'), map fst (es ++ es')).
Proof.
  unfold crawl_file, matches_in. simpl.
  destruct (str_in target nm).
  - intros H. apply bind_Ok in H as (skip & _ & H).
    destruct skip; injection H as <-.
    + exists []. split; [apply sublist_nil_l | rewrite app_nil_r; reflexivity].
    + exists [(part_scene_number path, path_join path nm)].
      split; [reflexivity | rewrite !map_app; reflexivity].
  - intros [= <-]. exists []. split; [constructor | rewrite app_nil_r; reflexivity].
Qed.

Lemma matches_in_cons (target path nm : string) (files : list string) :
  matches_in target (path, nm :: files) =
  matches_in target (path, [nm]) ++ matches_in target (path, files).
Proof. unfold matches_in. simpl. destruct (str_in target nm); reflexivity. Qed.

Lemma crawl_dir_some (target : string) (uniq : bool) (d : string * list string)
    (es : list entry) (c : found) :
  crawl_dir target uniq (map snd es, map fst es) d = Ok c ->
  exists es', sublist es' (matches_in target d) /\
              c = (map snd (es ++ es'), map fst (es ++ es')).
Proof.
  unfold crawl_dir. destruct d as [path files]. simpl.
  revert es. induction files as [|nm files IH]; intros es; simpl.
  - intros [= <-]. exists []. split; [constructor | rewrite app_nil_r; reflexivity].
  - intros H. apply bind_Ok in H as (c1 & H1 & H).
    apply crawl_file_some in H1 as (es1 & Hs1 & ->).
    apply IH in H as (es2 & Hs2 & ->).
    exists (es1 ++ es2). split; [|rewrite app_assoc; reflexivity].
    rewrite matches_in_cons. apply sublist_app; assumption.
Qed.

Lemma crawl_some (w : world) (root target : string) (uniq : bool) (c : found) :
  crawl w root target uniq = Ok c ->
  exists es, sublist es (all_matches w root target) /\
             c = (map snd es, map fst es).
Proof.
  unfold crawl, all_matches.
  assert (G : forall ds es0 c,
    foldM (crawl_dir target uniq) (map snd es0, map fst es0) ds = Ok c ->
    exists es', sublist es' (flat_map (matches_in target) ds) /\
                c = (map snd (es0 ++ es'), map fst (es0 ++ es'))).
  { induction ds as [|d ds IH]; intros es0 c0; simpl.
    - intros [= <-]. exists []. split; [constructor | rewrite app_nil_r; reflexivity].
    - intros H. apply bind_Ok in H as (c1 & H1 & H).
      apply crawl_dir_some in H1 as (es1 & Hs1 & ->).
      apply IH in H as (es2 & Hs2 & ->).
      exists (es1 ++ es2). split; [|rewrite app_assoc; reflexivity].
      apply sublist_app; assumption. }
  intros H. apply (G _ []) in H. exact H.
Qed.

Lemma elem_of_all_matches (w : world) (root target : string) (e : entry) :
  e ∈ all_matches w root target <->
  exists d files nm, (d, files) ∈ os_walk w root /\ nm ∈ files /\
    str_in target nm = true /\ e = (part_scene_number d, path_join d nm).
Proof.
  unfold all_matches, matches_in. rewrite list_elem_of_In, in_flat_map. split.
  - intros ([d files] & Hd & He). simpl in He.
    apply in_map_iff in He as (nm & <- & Hnm).
    apply filter_In in Hnm as [Hnm Ht].
    exists d, files, nm. rewrite !list_elem_of_In. auto.
  - intros (d & files & nm & Hd & Hnm & Ht & ->).
    exists (d, files). rewrite list_elem_of_In in Hd. split; [exact Hd|].
    simpl. apply in_map_iff. exists nm. split; [reflexivity|].
    apply filter_In. rewrite list_elem_of_In in Hnm. auto.
Qed.

(** The two sorting passes give the two components of one sorted list of
    pairs: the second pass, which pairs the unsorted identities with the
    sorted paths, still returns the identities in ascending order, and a list
    has one ascending arrangement only. *)
Lemma sort_found_paired (es : list entry) :
  sort_found (map snd es, map fst es) =
  (map snd (py_sorted entry_ltb es), map fst (py_sorted entry_ltb es)).
Proof.
  unfold sort_found. simpl. rewrite zip_map_fst_snd. f_equal.
  set (S1 := py_sorted entry_ltb es).
  set (S2 := py_sorted entry_ltb (zip (map fst es) (map snd S1))).
  assert (Hlen : length (map fst es) = length (map snd S1)).
  { rewrite !length_map. unfold S1.
    symmetry. apply Permutation_length.
    apply py_sorted_perm. }
  apply (Sorted_le_of_unique tuple_ltb).
  - rewrite map_fmap. apply Sorted_fmap with (R1 := le_of entry_ltb).
    + intros e1 e2. apply entry_le_fst.
    + apply py_sorted_Sorted, _.
  - rewrite map_fmap. apply Sorted_fmap with (R1 := le_of entry_ltb).
    + intros e1 e2. apply entry_le_fst.
    + apply py_sorted_Sorted, _.
  - unfold S2. rewrite (Permutation_map fst (py_sorted_perm entry_ltb _)).
    rewrite map_fst_zip by exact Hlen.
    unfold S1. rewrite (Permutation_map fst (py_sorted_perm entry_ltb es)).
    reflexivity.
Qed.

Lemma file_crawler_entries (w : world) (root target : string) (uniq : bool)
    (f : found) :
  file_crawler w root target uniq = Ok f ->
  exists es, sublist es (all_matches w root target) /\
    crawl w root target uniq = Ok (map snd es, map fst es) /\
    f = (map snd (py_sorted entry_ltb es), map fst (py_sorted entry_ltb es)).
Proof.
  unfold file_crawler. intros H. apply bind_Ok in H as (c & Hc & [= <-]).
  destruct (crawl_some _ _ _ _ _ Hc) as (es & Hsub & ->).
  exists es. split; [exact Hsub|]. split; [exact Hc|]. apply sort_found_paired.
Qed.

(** Without [uniq_seqs] the crawler always returns: the sorted entries of
    all the matching files. *)
Lemma file_crawler_returns (w : world) (root target : string) :
  file_crawler w root target false =
  Ok (map snd (py_sorted entry_ltb (all_matches w root target)),
      map fst (py_sorted entry_ltb (all_matches w root target))).
Proof.
  unfold file_crawler. rewrite crawl_all. simpl. rewrite sort_found_paired.
  reflexivity.
Qed.

(** [foldM] raises as soon as one turn raises whatever the state, when the
    turns before it return or raise the same exception. *)
Lemma foldM_raise {A S : Type} (f : S -> A -> res S) (e : exn) (l : list A) :
  (forall s x, x ∈ l -> (exists s', f s x = Ok s') \/ f s x = Raise e) ->
  (exists x, x ∈ l /\ forall s, f s x = Raise e) ->
  forall st, foldM f st l = Raise e.
Proof.
  induction l as [|y l IH]; intros Hall (x & Hx & Hraise) st.
  - inversion Hx.
  - simpl. destruct (Hall st y) as [(s' & Hs') | Hr]; [left | | rewrite Hr; reflexivity].
    rewrite Hs'. simpl. apply elem_of_cons in Hx as [-> | Hx].
    + rewrite Hraise in Hs'. discriminate.
    + apply IH; [|exists x; auto].
      intros s z Hz. apply Hall. right. exact Hz.
Qed.

Lemma list_get_cases {A : Type} (l : list A) (i : nat) :
  (exists x, list_get l i = Ok x) \/ list_get l i = Raise IndexError.
Proof. unfold list_get. destruct (l !! i); eauto. Qed.

Lemma crawl_file_cases (target : string) (uniq : bool) (path : string)
    (acc : found) (nm : string) :
  (exists c, crawl_file target uniq path acc nm = Ok c) \/
  crawl_file target uniq path acc nm = Raise IndexError.
Proof.
  unfold crawl_file. destruct (str_in target nm); [|eauto].
  destruct uniq; simpl; [|eauto]. unfold tuple_get.
  destruct (list_get_cases (part_scene_number path) 1) as [[x ->] | ->];
    simpl; [|auto].
  destruct (negb (x =? 1)); simpl; [eauto|].
  destruct (list_get_cases (part_scene_number path) 0) as [[y ->] | ->];
    simpl; [|auto].
  destruct (y <? 26); eauto.
Qed.

Lemma crawl_file_short (target path : string) (acc : found) (nm : string) :
  str_in target nm = true -> (length (part_scene_number path) < 2)%nat ->
  crawl_file target true path acc nm = Raise IndexError.
Proof.
  intros Hin Hlen. unfold crawl_file, tuple_get, list_get. rewrite Hin.
  rewrite (proj2 (lookup_ge_None _ _)) by lia. reflexivity.
Qed.

Lemma crawl_dir_cases (target : string) (uniq : bool) (acc : found)
    (d : string * list string) :
  (exists c, crawl_dir target uniq acc d = Ok c) \/
  crawl_dir target uniq acc d = Raise IndexError.
Proof.
  unfold crawl_dir. destruct d as [path files]. simpl. revert acc.
  induction files as [|nm files IH]; intros acc; simpl; [eauto|].
  destruct (crawl_file_cases target uniq path acc nm) as [[c ->] | ->];
    simpl; [apply IH | auto].
Qed.

Lemma crawl_short (w : world) (root target d : string) (files : list string)
    (nm : string) :
  (d, files) ∈ os_walk w root -> nm ∈ files -> str_in target nm = true ->
  (length (part_scene_number d) < 2)%nat ->
  crawl w root target true = Raise IndexError.
Proof.
  intros Hd Hnm Hin Hlen. unfold crawl. apply foldM_raise.
  - intros s x _. apply crawl_dir_cases.
  - exists (d, files). split; [exact Hd|]. intros s. unfold crawl_dir. simpl.
    apply foldM_raise.
    + intros s' x _. apply crawl_file_cases.
    + exists nm. split; [exact Hnm|]. intros s'. apply crawl_file_short; assumption.
Qed.

Lemma lookup_zip_Some {A B : Type} (l : list A) (k : list B) (i : nat) (a : A) (b : B) :
  zip l k !! i = Some (a, b) <-> l !! i = Some a /\ k !! i = Some b.
Proof.
  rewrite lookup_zip_with_Some. split.
  - intros (x & y & [= -> ->] & Hx & Hy). auto.
  - intros [Hx Hy]. eauto.
Qed.

(** C9: the two lists that [file_crawler] returns have the same length, and
    at every position the tuple is the tuple of the digit runs of the folder
    in which the file at that position was found: the two sorting passes keep
    each path with its participant and scene numbers. *)
Theorem file_crawler_pairing (w : world) (root target : string) (uniq : bool)
    (f : found) :
  file_crawler w root target uniq = Ok f ->
  length f.1 = length f.2 /\
  forall (i : nat) (p : string), f.1 !! i = Some p ->
    exists d files nm,
      (d, files) ∈ os_walk w root /\ nm ∈ files /\ str_in target nm = true /\
      p = path_join d nm /\
      f.2 !! i = Some (map int_of_digits (findall_digits d)).
Proof.
  intros H. apply file_crawler_entries in H as (es & Hsub & _ & ->). simpl.
  split; [rewrite !length_map; reflexivity|].
  intros i p Hp. rewrite map_fmap, list_lookup_fmap in Hp.
  match type of Hp with _ <$> ?o = _ => destruct o as [[id q]|] eqn:Hi end;
    simpl in Hp; [|discriminate Hp].
  injection Hp as ->.
  assert (Hin : (id, p) ∈ all_matches w root target).
  { eapply elem_of_sublist; [|exact Hsub].
    rewrite <- (py_sorted_perm entry_ltb es). eapply list_elem_of_lookup_2, Hi. }
  apply elem_of_all_matches in Hin as (d & files & nm & Hd & Hnm & Hin & [= -> ->]).
  exists d, files, nm. repeat (split; [assumption|]). split; [reflexivity|].
  rewrite map_fmap, list_lookup_fmap, Hi. reflexivity.
Qed.

Lemma file_crawler_pairing_witness :
  file_crawler world_two_files "data" "trajectory" false =
    Ok (["data/P1/S1/a_trajectory.json"; "data/P1/S1/b_trajectory.json"],
        [[1; 1]; [1; 1]]) /\
  exists d files nm,
    (d, files) ∈ os_walk world_two_files "data" /\ nm ∈ files /\
    str_in "trajectory" nm = true /\
    "data/P1/S1/a_trajectory.json" = path_join d nm /\
    [[1; 1]; [1; 1]] !! 0%nat = Some (map int_of_digits (findall_digits d)).
Proof.
  split; [reflexivity|].
  exact (proj2 (file_crawler_pairing world_two_files "data" "trajectory" false
                  (["data/P1/S1/a_trajectory.json"; "data/P1/S1/b_trajectory.json"],
                   [[1; 1]; [1; 1]]) eq_refl) 0%nat _ eq_refl).
Defined.

Lemma StronglySorted_lookup {A : Type} (R : relation A) (l : list A)
    (i j : nat) (x y : A) :
  StronglySorted R l -> (i < j)%nat -> l !! i = Some x -> l !! j = Some y ->
  R x y.
Proof.
  intros Hl. revert i j. induction Hl as [|a l Hl IH Ha]; intros i j Hij Hi Hj.
  - discriminate.
  - destruct j as [|j]; [lia|]. simpl in Hj. destruct i as [|i]; simpl in Hi.
    + injection Hi as <-. rewrite Forall_forall in Ha. apply Ha.
      eapply list_elem_of_lookup_2, Hj.
    + apply (IH i j); [lia | assumption | assumption].
Qed.

(** The walk of [world_two_files] finds [b] before [a], and [file_crawler]
    returns [a] before [b] although both have the identity (1, 1): entries of
    equal identity do not keep their discovery order. *)
Lemma file_crawler_ties_not_in_discovery_order :
  crawl world_two_files "data" "trajectory" false =
    Ok (["data/P1/S1/b_trajectory.json"; "data/P1/S1/a_trajectory.json"],
        [[1; 1]; [1; 1]]) /\
  file_crawler world_two_files "data" "trajectory" false =
    Ok (["data/P1/S1/a_trajectory.json"; "data/P1/S1/b_trajectory.json"],
        [[1; 1]; [1; 1]]) /\
  map snd (sorted_by_identity (all_matches world_two_files "data" "trajectory")) =
    ["data/P1/S1/b_trajectory.json"; "data/P1/S1/a_trajectory.json"] /\
  forall f, file_crawler world_two_files "data" "trajectory" false = Ok f ->
    f.1 <> map snd (sorted_by_identity (all_matches world_two_files "data" "trajectory")).
Proof.
  split; [reflexivity|]. split; [reflexivity|]. split; [reflexivity|].
  intros f [= <-]. discriminate.
Qed.

(** C5, as the code has it: the entries that [file_crawler] returns are in
    ascending order of their identity, the tuple of all the digit runs of the
    folder, compared component by component; entries of equal identity are in
    ascending order of their path strings, not in discovery order; and the
    result is the same for every order in which the walk discovers the same
    files. *)
Theorem file_crawler_sorted (w : world) (root target : string) (uniq : bool)
    (f : found) :
  file_crawler w root target uniq = Ok f ->
  (forall (i j : nat) (e1 e2 : entry), (i < j)%nat ->
     zip f.2 f.1 !! i = Some e1 -> zip f.2 f.1 !! j = Some e2 ->
     tuple_ltb e2.1 e1.1 = false /\
     (e1.1 = e2.1 -> String.ltb e2.2 e1.2 = false)) /\
  (forall (w' : world) (root' : string) (c c' : found),
     crawl w root target uniq = Ok c -> crawl w' root' target uniq = Ok c' ->
     zip c.2 c.1 ≡ₚ zip c'.2 c'.1 ->
     file_crawler w' root' target uniq = Ok f).
Proof.
  intros H. apply file_crawler_entries in H as (es & Hsub & Hc & ->). simpl.
  rewrite zip_map_fst_snd. split.
  - intros i j e1 e2 Hij H1 H2.
    assert (Hle : le_of entry_ltb e1 e2).
    { eapply StronglySorted_lookup; [|exact Hij|exact H1|exact H2].
      apply py_sorted_StronglySorted, _. }
    split; [apply entry_le_fst, Hle|].
    intros Heq. unfold le_of, entry_ltb in Hle.
    rewrite Heq, tuple_eqb_refl in Hle. exact Hle.
  - intros w' root' c c' Hc0 Hc' Hperm. rewrite Hc in Hc0. injection Hc0 as <-.
    simpl in Hperm. rewrite zip_map_fst_snd in Hperm.
    unfold file_crawler. rewrite Hc'. simpl.
    destruct (crawl_some _ _ _ _ _ Hc') as (es' & _ & ->).
    simpl in Hperm. rewrite zip_map_fst_snd in Hperm.
    rewrite sort_found_paired.
    rewrite (py_sorted_order_irrelevant entry_ltb es es' Hperm). reflexivity.
Qed.

Lemma file_crawler_sorted_witness :
  file_crawler world_two_files "data" "trajectory" false =
    Ok (["data/P1/S1/a_trajectory.json"; "data/P1/S1/b_trajectory.json"],
        [[1; 1]; [1; 1]]) /\
  tuple_ltb [1; 1] [1; 1] = false /\
  String.ltb "data/P1/S1/b_trajectory.json" "data/P1/S1/a_trajectory.json" = false.
Proof.
  split; [reflexivity|].
  destruct (proj1 (file_crawler_sorted world_two_files "data" "trajectory" false
                     (["data/P1/S1/a_trajectory.json"; "data/P1/S1/b_trajectory.json"],
                      [[1; 1]; [1; 1]]) eq_refl)
              0%nat 1%nat ([1; 1], "data/P1/S1/a_trajectory.json")
              ([1; 1], "data/P1/S1/b_trajectory.json") (le_n 1) eq_refl eq_refl)
    as [H1 H2].
  split; [exact H1 | exact (H2 eq_refl)].
Defined.

(** The only matched file of [world_no_digits] lies in a folder whose path
    has no digit run at all, and [file_crawler] returns it, with the empty
    tuple as its identity. *)
Lemma file_crawler_accepts_short_identity :
  findall_digits "data" = [] /\
  file_crawler world_no_digits "data" "PickPlace_dataset" false =
    Ok (["data/PickPlace_dataset.json"], [[]]) /\
  ~ (exists e, file_crawler world_no_digits "data" "PickPlace_dataset" false = Raise e).
Proof.
  split; [reflexivity|]. split; [reflexivity|]. intros [e He]. discriminate He.
Qed.

(** C6, as the code has it: for a matched file in a folder whose path has
    fewer than two digit runs, [file_crawler] without [uniq_seqs] does not
    fail and returns an entry for the file, whose tuple has fewer than two
    components; with [uniq_seqs] it fails with [IndexError]. *)
Theorem file_crawler_short_identity (w : world) (root target d : string)
    (files : list string) (nm : string) :
  (d, files) ∈ os_walk w root -> nm ∈ files -> str_in target nm = true ->
  (length (findall_digits d) < 2)%nat ->
  (exists f, file_crawler w root target false = Ok f /\
     exists i id, f.1 !! i = Some (path_join d nm) /\ f.2 !! i = Some id /\
       id = map int_of_digits (findall_digits d) /\ (length id < 2)%nat) /\
  file_crawler w root target true = Raise IndexError.
Proof.
  intros Hd Hnm Hin Hlen.
  assert (Hlen' : (length (part_scene_number d) < 2)%nat).
  { unfold part_scene_number. rewrite length_map. exact Hlen. }
  split.
  - unfold file_crawler. rewrite crawl_all. simpl. eexists. split; [reflexivity|].
    rewrite sort_found_paired. simpl.
    assert (He : (part_scene_number d, path_join d nm)
                   ∈ py_sorted entry_ltb (all_matches w root target)).
    { rewrite (py_sorted_perm entry_ltb). apply elem_of_all_matches.
      exists d, files, nm. auto. }
    apply list_elem_of_lookup_1 in He as [i Hi].
    exists i, (part_scene_number d).
    rewrite !map_fmap, !list_lookup_fmap.
    match goal with |- context [_ <$> ?o] => replace o with (Some (part_scene_number d, path_join d nm)) end.
    simpl. auto.
  - unfold file_crawler. erewrite crawl_short; eauto.
Qed.

Lemma file_crawler_short_identity_witness :
  (exists f, file_crawler world_no_digits "data" "PickPlace_dataset" false = Ok f /\
     exists i id, f.1 !! i = Some (path_join "data" "PickPlace_dataset.json") /\
       f.2 !! i = Some id /\
       id = map int_of_digits (findall_digits "data") /\ (length id < 2)%nat) /\
  file_crawler world_no_digits "data" "PickPlace_dataset" true = Raise IndexError.
Proof.
  apply (file_crawler_short_identity world_no_digits "data" "PickPlace_dataset"
           "data" ["PickPlace_dataset.json"] "PickPlace_dataset.json").
  - simpl. apply list_elem_of_here.
  - apply list_elem_of_here.
  - reflexivity.
  - simpl. lia.
Defined.

(** ** [get_clean_name] *)

Lemma substring_is_prefix (n : nat) (s : string) :
  exists rest, s = String.substring 0 n s +:+ rest.
Proof.
  revert n. induction s as [|c s IH]; intros [|n]; simpl.
  - exists EmptyString. reflexivity.
  - exists EmptyString. reflexivity.
  - exists (String c s). reflexivity.
  - destruct (IH n) as [rest Hrest]. exists rest.
    change (String c s = String c (String.substring 0 n s +:+ rest)).
    f_equal. exact Hrest.
Qed.

Lemma substring_length_le (n : nat) (s : string) :
  (String.length (String.substring 0 n s) <= String.length s)%nat.
Proof.
  revert n. induction s as [|c s IH]; intros [|n]; simpl; try lia.
  specialize (IH n). lia.
Qed.

Lemma substring_all (s : string) : String.substring 0 (String.length s) s = s.
Proof. induction s as [|c s IH]; simpl; [reflexivity | rewrite IH; reflexivity]. Qed.

Lemma prefix_append (s rest : string) : String.prefix s (s +:+ rest) = true.
Proof.
  induction s as [|c s IH]; [destruct rest; reflexivity|].
  change (String c s +:+ rest) with (String c (s +:+ rest)). simpl.
  destruct (ascii_dec c c); [exact IH | contradiction].
Qed.

Lemma slice_to_len (s : string) : slice_to s (len s) = s.
Proof.
  unfold slice_to, len.
  destruct (Z.ltb_spec (Z.of_nat (String.length s)) 0); [lia|].
  rewrite Z.min_id, Nat2Z.id. apply substring_all.
Qed.

(** A name with neither a bracket nor a hyphen is returned as it is. *)
Lemma get_clean_name_plain (name : string) :
  str_find "(" name = -1 -> str_find "-" name = -1 -> get_clean_name name = name.
Proof.
  intros H1 H2. unfold get_clean_name. rewrite H1, H2. simpl. apply slice_to_len.
Qed.

(** When both delimiters occur the name is cut at the first of them, or at
    the second one when the first is at the start of the name. *)
Lemma get_clean_name_both (name : string) :
  0 <= str_find "(" name -> 0 <= str_find "-" name ->
  get_clean_name name =
  slice_to name (if 0 <? Z.min (str_find "(" name) (str_find "-" name)
                 then Z.min (str_find "(" name) (str_find "-" name)
                 else Z.max (str_find "(" name) (str_find "-" name)).
Proof.
  intros H1 H2. unfold get_clean_name.
  destruct (Z.eqb_spec (str_find "(" name) (-1)); [lia|]. reflexivity.
Qed.

(** When only one delimiter occurs the name is cut at it, also when it is at
    the start of the name. *)
Lemma get_clean_name_one (name : string) (k : Z) :
  0 <= k ->
  (str_find "(" name = k /\ str_find "-" name = -1) \/
  (str_find "(" name = -1 /\ str_find "-" name = k) ->
  get_clean_name name = slice_to name k.
Proof.
  intros Hk [[H1 H2] | [H1 H2]]; unfold get_clean_name; rewrite H1, H2.
  - destruct (Z.eqb_spec k (-1)); [lia|]. simpl.
    destruct (Z.ltb_spec 0 (Z.min k (-1))); [lia|]. f_equal. lia.
  - simpl. destruct (Z.eqb_spec k (-1)); [lia|]. simpl.
    destruct (Z.ltb_spec 0 (Z.min (-1) k)); [lia|]. f_equal. lia.
Qed.

Example get_clean_name_box : get_clean_name "010 box(clone)-29932" = "010 box".
Proof. reflexivity. Qed.

Example get_clean_name_plain_name : get_clean_name "plain name" = "plain name".
Proof. reflexivity. Qed.

(** C4: on the name [(leading)tail] of the specification, whose only
    delimiter is the bracket at its start, [get_clean_name] cuts at position 0
    and returns the empty string. *)
Theorem get_clean_name_leading_delimiter :
  str_find "(" "(leading)tail" = 0 /\
  str_find "-" "(leading)tail" = -1 /\
  get_clean_name "(leading)tail" = "".
Proof. repeat split. Qed.

(** C10: [get_clean_name] returns a prefix of the name it is given, so the
    result is at most as long as the name. *)
Theorem get_clean_name_prefix (name : string) :
  (exists rest, name = get_clean_name name +:+ rest) /\
  String.prefix (get_clean_name name) name = true /\
  (String.length (get_clean_name name) <= String.length name)%nat.
Proof.
  unfold get_clean_name, slice_to.
  match goal with |- context [String.substring 0 ?n name] => generalize n end.
  intros n. destruct (substring_is_prefix n name) as [rest Hrest].
  split; [exists rest; exact Hrest|]. split; [|apply substring_length_le].
  rewrite Hrest at 2. apply prefix_append.
Qed.

(** ** [get_scene_durations] *)

Lemma mapM_app {A B : Type} (f : A -> res B) (l1 l2 : list A) :
  mapM f (l1 ++ l2) = (ys1 <- mapM f l1 ;; ys2 <- mapM f l2 ;; Ok (ys1 ++ ys2)).
Proof.
  induction l1 as [|x l1 IH]; simpl.
  - destruct (mapM f l2); reflexivity.
  - destruct (f x); simpl; [|reflexivity]. rewrite IH.
    destruct (mapM f l1); simpl; [|reflexivity].
    destruct (mapM f l2); reflexivity.
Qed.

(** A loop that appends one result per element is a [mapM]. *)
Lemma foldM_append {A B : Type} (f : A -> res B) (l : list A) (acc : list B) :
  foldM (fun out x => y <- f x ;; Ok (out ++ [y])) acc l =
  (ys <- mapM f l ;; Ok (acc ++ ys)).
Proof.
  revert acc. induction l as [|x l IH]; intros acc; simpl.
  - rewrite app_nil_r. reflexivity.
  - destruct (f x) as [y|e]; simpl; [|reflexivity]. rewrite IH.
    destruct (mapM f l); simpl; [|reflexivity]. rewrite <- app_assoc. reflexivity.
Qed.

Lemma get_scene_durations_mapM (b : BoxED) :
  get_scene_durations b = mapM scene_duration (all_scenes b).
Proof.
  unfold get_scene_durations, all_scenes.
  assert (G : forall ps acc,
    foldM (fun durations participant =>
             foldM (fun durations' scene =>
                      d <- scene_duration scene ;; Ok (durations' ++ [d]))
                   durations (scenes participant)) acc ps =
    (ys <- mapM scene_duration (flat_map scenes ps) ;; Ok (acc ++ ys))).
  { induction ps as [|p ps IH]; intros acc; simpl.
    - rewrite app_nil_r. reflexivity.
    - rewrite foldM_append, mapM_app.
      destruct (mapM scene_duration (scenes p)); simpl; [|reflexivity].
      rewrite IH. destruct (mapM scene_duration (flat_map scenes ps)); simpl;
        [rewrite app_assoc|]; reflexivity. }
  rewrite G. destruct (mapM scene_duration (flat_map scenes (participants b)));
    reflexivity.
Qed.

Lemma list_get_0_head {A : Type} (l : list A) (x : A) :
  head l = Some x -> list_get l 0 = Ok x.
Proof. destruct l; simpl; [discriminate | intros [= ->]; reflexivity]. Qed.

Lemma list_get_last_Some {A : Type} (l : list A) (x : A) :
  last l = Some x -> list_get_last l = Ok x.
Proof. unfold list_get_last. intros ->. reflexivity. Qed.

Lemma scene_duration_spans (scene : Scene) (d : Z) :
  spans scene d -> scene_duration scene = Ok d.
Proof.
  intros (fo & lo & fp & lp & t0 & t1 & Hfo & Hlo & Hfp & Hlp & H0 & H1 & ->).
  unfold scene_duration.
  rewrite (list_get_last_Some _ _ Hlo). simpl.
  rewrite (list_get_last_Some _ _ Hlp). simpl.
  rewrite (list_get_0_head _ _ Hfo). simpl.
  rewrite (list_get_0_head _ _ Hfp). simpl.
  unfold py_sub. rewrite H1, H0. reflexivity.
Qed.

Lemma scene_duration_no_samples (scene : Scene) :
  endpoint_without_samples scene -> scene_duration scene = Raise IndexError.
Proof.
  intros (fo & lo & Hfo & Hlo & Hempty). unfold scene_duration.
  rewrite (list_get_last_Some _ _ Hlo). simpl. unfold list_get_last at 1.
  destruct (last (trajectory lo)) as [lp|] eqn:E; simpl; [|reflexivity].
  rewrite (list_get_0_head _ _ Hfo). simpl.
  destruct Hempty as [Hf | Hl].
  - rewrite Hf. reflexivity.
  - rewrite Hl in E. discriminate.
Qed.

Lemma list_get_0_Ok {A : Type} (l : list A) (x : A) :
  list_get l 0 = Ok x -> head l = Some x.
Proof. destruct l; simpl; [discriminate | intros [= ->]; reflexivity]. Qed.

Lemma list_get_last_Ok {A : Type} (l : list A) (x : A) :
  list_get_last l = Ok x -> last l = Some x.
Proof. unfold list_get_last. destruct (last l); [intros [= ->]; reflexivity | discriminate]. Qed.

Lemma py_sub_Ok (a b : json) (d : Z) :
  py_sub a b = Ok d ->
  exists x y, as_int a = Some x /\ as_int b = Some y /\ d = x - y.
Proof.
  unfold py_sub. destruct (as_int a) as [x|]; [|discriminate].
  destruct (as_int b) as [y|]; [|discriminate]. intros [= <-]. eauto.
Qed.

Lemma scene_duration_Ok (scene : Scene) (d : Z) :
  scene_duration scene = Ok d <-> spans scene d.
Proof.
  split; [|apply scene_duration_spans].
  unfold scene_duration. intros H.
  apply bind_Ok in H as (lo & Hlo & H). apply bind_Ok in H as (lp & Hlp & H).
  apply bind_Ok in H as (fo & Hfo & H). apply bind_Ok in H as (fp & Hfp & H).
  apply py_sub_Ok in H as (t1 & t0 & H1 & H0 & ->).
  exists fo, lo, fp, lp, t0, t1.
  auto 10 using list_get_0_Ok, list_get_last_Ok.
Qed.

Lemma mapM_raises {A B : Type} (f : A -> res B) (l : list A) (x : A) (e : exn) :
  x ∈ l -> f x = Raise e -> exists e', mapM f l = Raise e'.
Proof.
  induction l as [|y l IH]; intros Hx Hf; [inversion Hx|]. simpl.
  destruct (f y) as [z|e1] eqn:Hy; simpl; [|eauto].
  apply elem_of_cons in Hx as [-> | Hx]; [congruence|].
  destruct (IH Hx Hf) as [e' ->]. eauto.
Qed.

Lemma mapM_raises_same {A B : Type} (f : A -> res B) (l : list A) (x : A)
    (e : exn) :
  (forall y, y ∈ l -> (exists z, f y = Ok z) \/ f y = Raise e) ->
  x ∈ l -> f x = Raise e -> mapM f l = Raise e.
Proof.
  induction l as [|y l IH]; intros Hall Hx Hf; [inversion Hx|]. simpl.
  destruct (Hall y) as [[z Hz] | Hr]; [left | | rewrite Hr; reflexivity].
  rewrite Hz. simpl. apply elem_of_cons in Hx as [-> | Hx]; [congruence|].
  rewrite IH; [reflexivity | | assumption | assumption].
  intros y' Hy'. apply Hall. right. exact Hy'.
Qed.

(** With integer time stamps the only exception of a scene is [IndexError]. *)
Lemma scene_duration_int_stamps (scene : Scene) :
  (forall obj p, obj ∈ objs_info scene -> p ∈ trajectory obj ->
     is_Some (as_int (time_stamp p))) ->
  (exists d, scene_duration scene = Ok d) \/ scene_duration scene = Raise IndexError.
Proof.
  intros Hint. unfold scene_duration, list_get_last, list_get.
  destruct (last (objs_info scene)) as [lo|] eqn:Hlo; simpl; [|auto].
  destruct (last (trajectory lo)) as [lp|] eqn:Hlp; simpl; [|auto].
  destruct (objs_info scene !! 0%nat) as [fo|] eqn:Hfo; simpl; [|auto].
  destruct (trajectory fo !! 0%nat) as [fp|] eqn:Hfp; simpl; [|auto].
  destruct (Hint lo lp) as [t1 H1];
    [eapply last_Some_elem_of; eassumption..|].
  destruct (Hint fo fp) as [t0 H0];
    [eapply list_elem_of_lookup_2; eassumption..|].
  unfold py_sub. rewrite H1, H0. eauto.
Qed.

(** C8: [get_scene_durations] returns a list exactly when every scene, in
    the order of the participants and of their scenes, has a first and a last
    object whose first and last samples carry integer time stamps, and the
    list then holds, for each scene in that order, the last time stamp of the
    last object minus the first time stamp of the first object; when the first
    or the last object of some scene has an empty trajectory the call raises,
    and what it raises is [IndexError] when the time stamps are integers. *)
Theorem get_scene_durations_spec (b : BoxED) :
  (forall ds, get_scene_durations b = Ok ds <-> Forall2 spans (all_scenes b) ds) /\
  (forall scene, scene ∈ all_scenes b -> endpoint_without_samples scene ->
     (exists e, get_scene_durations b = Raise e) /\
     (int_stamps b -> get_scene_durations b = Raise IndexError)).
Proof.
  rewrite get_scene_durations_mapM. split.
  - intros ds. rewrite mapM_Ok_Forall2. split; intros H;
      (eapply Forall2_impl; [exact H|]); intros scene d; apply scene_duration_Ok.
  - intros scene Hin Hempty. apply scene_duration_no_samples in Hempty.
    split; [eapply mapM_raises; eassumption|].
    intros Hint. eapply mapM_raises_same; [|eassumption..].
    intros y Hy. apply scene_duration_int_stamps. intros obj p. apply Hint, Hy.
Qed.

Lemma get_scene_durations_spec_witness :
  get_scene_durations dataset_two_objects = Ok [800] /\
  get_scene_durations dataset_missing_trajectory = Raise IndexError.
Proof.
  split.
  - apply (proj1 (get_scene_durations_spec dataset_two_objects)).
    repeat constructor.
    exists (obj_with "011 banana" [sample 100; sample 500]),
           (obj_with "013 apple" [sample 50; sample 900]),
           (sample 100), (sample 900), 100, 900.
    repeat split.
  - refine (proj2 (proj2 (get_scene_durations_spec dataset_missing_trajectory) _ _ _) _).
    + apply list_elem_of_here.
    + exists (obj_with "011 banana" [sample 100; sample 500]), (obj_with "013 apple" []).
      repeat split. right. reflexivity.
    + intros scene obj p Hs Ho Hp.
      apply list_elem_of_singleton in Hs. subst scene. simpl in Ho.
      repeat (apply elem_of_cons in Ho as [-> | Ho]);
        [| |inversion Ho]; simpl in Hp.
      * repeat (apply elem_of_cons in Hp as [-> | Hp]); [eexists; reflexivity..|inversion Hp].
      * inversion Hp.
Defined.

(** ** [get_grasp_poses] *)

Lemma str_mem_In (s : string) (l : list string) :
  str_mem s l = true <-> In s l.
Proof.
  unfold str_mem. rewrite existsb_exists. split.
  - intros (x & Hx & Heq). apply String.eqb_eq in Heq. subst. exact Hx.
  - intros H. exists s. split; [exact H | apply String.eqb_refl].
Qed.

Lemma grasp_type_checked (grasp_type : string) :
  str_mem grasp_type ["pick"; "place"] = false <->
  grasp_type <> "pick" /\ grasp_type <> "place".
Proof.
  unfold str_mem. simpl. rewrite orb_false_r, orb_false_iff, !String.eqb_neq.
  reflexivity.
Qed.

Lemma grasp_targets_invalid (grasp_type : string) (objs : pyval) :
  invalid_grasp_args grasp_type objs ->
  exists msg, grasp_targets grasp_type objs = ([msg], Raise (SystemExit 1)).
Proof.
  intros Hinv. unfold grasp_targets.
  destruct (str_mem grasp_type ["pick"; "place"]) eqn:Hgt; cbn [negb]; [|eauto].
  destruct Hinv as [Hinv | Hinv].
  { apply grasp_type_checked in Hinv. congruence. }
  destruct objs as [s | l |].
  - destruct Hinv as [Hall Hmem].
    apply String.eqb_neq in Hall. rewrite Hall, Hmem. eauto.
  - destruct (forallb is_str l); [|eauto].
    destruct (forallb known_obj l) eqn:Hknown; [|eauto].
    destruct Hinv as (v & Hv & Hbad). rewrite forallb_forall in Hknown.
    apply list_elem_of_In in Hv. rewrite (Hknown v Hv) in Hbad. discriminate.
  - eauto.
Qed.

Lemma grasp_targets_valid (grasp_type : string) (objs : pyval) :
  ~ invalid_grasp_args grasp_type objs ->
  exists targets, grasp_targets grasp_type objs = ([], Ok targets).
Proof.
  intros Hval. unfold grasp_targets, invalid_grasp_args in *.
  destruct (str_mem grasp_type ["pick"; "place"]) eqn:Hgt; cbn [negb].
  2:{ exfalso. apply Hval. left. apply grasp_type_checked, Hgt. }
  destruct objs as [s | l |].
  - destruct (String.eqb_spec s "all"); [eauto|].
    destruct (str_mem s ALL_OBJS) eqn:Hmem; [eauto|].
    exfalso. apply Hval. right. auto.
  - assert (Hknown : forallb known_obj l = true).
    { apply forallb_forall. intros v Hv.
      destruct (known_obj v) eqn:Hk; [reflexivity|].
      exfalso. apply Hval. right. exists v. rewrite list_elem_of_In. auto. }
    assert (Hstr : forallb is_str l = true).
    { apply forallb_forall. intros v Hv. rewrite forallb_forall in Hknown.
      specialize (Hknown v Hv). destruct v; [reflexivity | discriminate..]. }
    rewrite Hstr, Hknown. eauto.
  - exfalso. apply Hval. right. exact I.
Qed.

(** An invalid grasp type and an unknown object name both make
    [get_grasp_poses] log a message and raise [SystemExit 1], the exception
    with which the interpreter terminates the program. *)
Lemma get_grasp_poses_exits_program :
  get_grasp_poses dataset_two_objects "grab" (PStr "all") =
    (["grasp_type argument must be either 'pick' or 'place'."],
     Raise (SystemExit 1)) /\
  get_grasp_poses dataset_two_objects "pick" (PStr "099 unicorn") =
    (["Specified object name is invalid. Check BoxED.All_OBJS for the list of all objects."],
     Raise (SystemExit 1)) /\
  ~ aborts_call_only (get_grasp_poses dataset_two_objects "grab" (PStr "all")).2 /\
  ~ aborts_call_only (get_grasp_poses dataset_two_objects "pick" (PStr "099 unicorn")).2.
Proof.
  split; [reflexivity|]. split; [reflexivity|].
  split; intros (e & He & Hexit); injection He as <-; discriminate Hexit.
Qed.

(** C7, as the code has it: a call of [get_grasp_poses] with a grasp type
    other than [pick] and [place], or with an object name that is not in the
    catalogue, logs one error message and calls [exit(1)]: it raises
    [SystemExit 1], which ends the program unless the caller intercepts it,
    and returns no dictionary; a call with valid arguments logs nothing and
    returns a dictionary. *)
Theorem get_grasp_poses_invalid (b : BoxED) (grasp_type : string) (objs : pyval) :
  (invalid_grasp_args grasp_type objs ->
   exists msg, get_grasp_poses b grasp_type objs = ([msg], Raise (SystemExit 1))) /\
  (~ invalid_grasp_args grasp_type objs ->
   exists d, get_grasp_poses b grasp_type objs = ([], Ok d)).
Proof.
  unfold get_grasp_poses. split; intros H.
  - destruct (grasp_targets_invalid _ _ H) as [msg ->]. eauto.
  - destruct (grasp_targets_valid _ _ H) as [targets ->]. simpl. eauto.
Qed.

Lemma get_grasp_poses_invalid_witness :
  exists msg, get_grasp_poses dataset_two_objects "grab" (PStr "011 banana") =
                ([msg], Raise (SystemExit 1)).
Proof.
  apply (proj1 (get_grasp_poses_invalid dataset_two_objects "grab" (PStr "011 banana"))).
  left. split; discriminate.
Defined.

(** ** [load_pick_place] *)

(** C1: on two participants with one pick and place file each, the sorted
    list of the crawler ends with a run of one file, and [load_pick_place]
    builds the first participant only: the participant of the last file is
    missing from the result. *)
Theorem load_pick_place_drops_last_participant :
  file_crawler world_two_participants "data" "PickPlace_dataset" false =
    Ok (["data/P1/S1/PickPlace_dataset.json"; "data/P2/S1/PickPlace_dataset.json"],
        [[1; 1]; [2; 1]]) /\
  exists parts, load_pick_place world_two_participants "data" = Ok parts /\
                map part_num parts = [1].
Proof. split; [reflexivity|]. eexists. split; reflexivity. Qed.

(** ** Camera trajectories *)

Lemma foldM_invariant {A S : Type} (f : S -> A -> res S) (P : S -> Prop)
    (l : list A) (st st' : S) :
  (forall s x s', P s -> f s x = Ok s' -> P s') ->
  P st -> foldM f st l = Ok st' -> P st'.
Proof.
  intros Hstep. revert st. induction l as [|x l IH]; intros st Hst; simpl.
  - intros [= <-]. exact Hst.
  - intros H. apply bind_Ok in H as (s1 & H1 & H). eapply IH; [|exact H].
    eapply Hstep; eassumption.
Qed.

(** A camera file with at least one record cannot be loaded: the records are
    read with attribute access, which the values of [json.load] do not have. *)
Lemma Scene_add_cam_traj_raises (w : world) (scene : Scene) (file : string)
    (data x : json) (items : list json) :
  json_load w file = Ok data -> py_iter data = Ok (x :: items) ->
  Scene_add_cam_traj w scene file = Raise AttributeError.
Proof. intros Hload Hiter. unfold Scene_add_cam_traj. rewrite Hload. simpl. rewrite Hiter. reflexivity. Qed.

(** When [Scene.add_cam_traj] returns, the document had no record and the
    scene is as it was. *)
Lemma Scene_add_cam_traj_Ok (w : world) (scene scene' : Scene) (file : string) :
  Scene_add_cam_traj w scene file = Ok scene' ->
  (exists data, json_load w file = Ok data /\ py_iter data = Ok []) /\
  scene' = scene.
Proof.
  unfold Scene_add_cam_traj. intros H.
  apply bind_Ok in H as (data & Hload & H).
  apply bind_Ok in H as (items & Hiter & H).
  apply bind_Ok in H as (poses & Hposes & [= <-]).
  destruct items as [|x items]; [|discriminate Hposes].
  injection Hposes as <-. split; [eauto|].
  unfold set_cam_traj. rewrite app_nil_r. destruct scene; reflexivity.
Qed.

Lemma add_trajectories_scene_cam_traj (w : world) (pn : Z)
    (part_files : list string) (aux : list Z)
    (cam : option (list string * list identity)) (scene scene' : Scene) :
  add_trajectories_scene w pn part_files aux cam scene = Ok scene' ->
  cam_traj scene' = cam_traj scene.
Proof.
  unfold add_trajectories_scene. intros H.
  apply bind_Ok in H as (scene1 & H1 & H).
  unfold Scene_add_obj_traj in H1. apply bind_Ok in H1 as (objs & _ & [= <-]).
  destruct cam as [[cam_files cam_nums]|].
  - apply bind_Ok in H as (k & _ & H). apply bind_Ok in H as (file & _ & H).
    apply Scene_add_cam_traj_Ok in H as [_ ->]. reflexivity.
  - injection H as <-. reflexivity.
Qed.

Lemma Participant_add_trajectories_cam_traj (w : world) (part part' : Participant)
    (part_files : list string) (part_scene_nums : list identity)
    (cam : option (list string * list identity)) :
  Participant_add_trajectories w part part_files part_scene_nums cam = Ok part' ->
  map cam_traj (scenes part') = map cam_traj (scenes part).
Proof.
  unfold Participant_add_trajectories. intros H.
  apply bind_Ok in H as (aux & _ & H).
  apply bind_Ok in H as (new_scenes & Hs & [= <-]). simpl.
  apply mapM_Ok_Forall2 in Hs.
  induction Hs as [|s s' ss ss' Hs _ IH]; simpl; [reflexivity|].
  rewrite IH. f_equal. eapply add_trajectories_scene_cam_traj, Hs.
Qed.

Lemma load_trajectories_cam_traj (w : world) (root : string) (load_cam : bool)
    (parts parts' : list Participant) :
  load_trajectories w root load_cam parts = Ok parts' ->
  map cam_traj (flat_map scenes parts') = map cam_traj (flat_map scenes parts).
Proof.
  unfold load_trajectories. intros H.
  apply bind_Ok in H as (f & _ & H). apply bind_Ok in H as (aux & _ & H).
  apply mapM_Ok_Forall2 in H.
  induction H as [|p p' ps ps' Hp _ IH]; simpl; [reflexivity|].
  rewrite !map_app, IH. f_equal.
  unfold load_trajectories_part in Hp.
  destruct load_cam; eapply Participant_add_trajectories_cam_traj, Hp.
Qed.

Lemma Participant_add_objects_cam_traj (w : world) (files : list string)
    (nums : list identity) (p : Participant) :
  Participant_add_objects w files nums = Ok p ->
  Forall (fun s => cam_traj s = []) (scenes p).
Proof.
  unfold Participant_add_objects. intros H.
  apply bind_Ok in H as (first & _ & H). apply bind_Ok in H as (pn & _ & H).
  apply bind_Ok in H as (new_scenes & Hs & [= <-]). simpl.
  apply mapM_Ok_Forall2 in Hs.
  induction Hs as [|x s xs ss Hx _ IH]; constructor; [|exact IH].
  apply bind_Ok in Hx as (sn & _ & Hx). unfold Scene_add_objects in Hx.
  apply bind_Ok in Hx as (data & _ & Hx). apply bind_Ok in Hx as (items & _ & Hx).
  apply bind_Ok in Hx as (objs & _ & [= <-]). reflexivity.
Qed.

Lemma add_participant_cam_traj (w : world) (parts parts' : list Participant)
    (files : list string) (nums : list identity) :
  Forall (fun s => cam_traj s = []) (flat_map scenes parts) ->
  add_participant w parts files nums = Ok parts' ->
  Forall (fun s => cam_traj s = []) (flat_map scenes parts').
Proof.
  intros Hparts H. unfold add_participant in H.
  apply bind_Ok in H as (p & Hp & [= <-]).
  rewrite flat_map_app. simpl. rewrite app_nil_r.
  apply Forall_app. split; [exact Hparts|].
  eapply Participant_add_objects_cam_traj, Hp.
Qed.

Lemma load_pick_place_cam_traj (w : world) (root : string)
    (parts : list Participant) :
  load_pick_place w root = Ok parts ->
  Forall (fun s => cam_traj s = []) (flat_map scenes parts).
Proof.
  unfold load_pick_place, group_participants. intros H.
  apply bind_Ok in H as (f & _ & H). apply bind_Ok in H as (st & Hst & [= <-]).
  revert Hst.
  apply (foldM_invariant _
           (fun st => Forall (fun s => cam_traj s = []) (flat_map scenes st.2)));
    [|constructor].
  intros [start ps] i [start' ps'] Hinv Hstep. simpl in *.
  unfold pick_place_step in Hstep. simpl in Hstep.
  apply bind_Ok in Hstep as (a & _ & Hstep).
  apply bind_Ok in Hstep as (b & _ & Hstep).
  apply bind_Ok in Hstep as ([start1 ps1] & H1 & Hstep). simpl in Hstep.
  assert (Hinv1 : Forall (fun s => cam_traj s = []) (flat_map scenes ps1)).
  { destruct (negb (a =? b)).
    - apply bind_Ok in H1 as (ps2 & H2 & [= <- <-]).
      eapply add_participant_cam_traj; eassumption.
    - destruct ((a =? b) && (i =? length f.2 - 1)%nat).
      + apply bind_Ok in H1 as (ps2 & H2 & [= <- <-]).
        eapply add_participant_cam_traj; eassumption.
      + injection H1 as <- <-. exact Hinv. }
  destruct (i =? length f.2 - 1)%nat; [|injection Hstep as <- <-; exact Hinv1].
  apply bind_Ok in Hstep as (a' & _ & Hstep).
  apply bind_Ok in Hstep as (b' & _ & Hstep).
  destruct (negb (a' =? b')); [|injection Hstep as <- <-; exact Hinv1].
  apply bind_Ok in Hstep as (file & _ & Hstep).
  apply bind_Ok in Hstep as (nums & _ & Hstep).
  apply bind_Ok in Hstep as (ps2 & H2 & [= <- <-]).
  eapply add_participant_cam_traj; eassumption.
Qed.

(** X20: whatever the flag, a dataset that [BoxED.__init__] returns has no
    camera trajectory: with the flag, loading succeeds only when every camera
    file that is looked up holds no record. *)
Theorem BoxED_init_cam_traj (w : world) (root : option string) (load_cam : bool)
    (b : BoxED) :
  BoxED_init w root load_cam = Ok b ->
  Forall (fun s => cam_traj s = []) (all_scenes b).
Proof.
  unfold BoxED_init. destruct root as [folder|]; [|discriminate].
  destruct (negb (is_dir w folder)); [discriminate|]. intros H.
  apply bind_Ok in H as (parts & Hparts & H).
  apply bind_Ok in H as (parts' & Hparts' & [= <-]). unfold all_scenes. simpl.
  apply load_pick_place_cam_traj in Hparts.
  apply load_trajectories_cam_traj in Hparts'.
  rewrite Forall_forall in Hparts. apply Forall_forall. intros s Hs.
  apply list_elem_of_In, (in_map cam_traj) in Hs.
  rewrite Hparts' in Hs. apply in_map_iff in Hs as (s0 & Heq & Hs0).
  rewrite <- Heq. apply Hparts, list_elem_of_In, Hs0.
Qed.

(** C3: in [world_with_camera] the camera file of the only scene holds two
    records, which [read_traj] parses as it parses the trajectory of an
    object; with [load_cam_traj] the construction of the dataset raises
    [AttributeError] instead of loading them, and without it the dataset is
    built and the camera trajectory of the scene is empty. *)
Theorem camera_trajectory_raises :
  json_load world_with_camera "data/P1/S1/main_camera_trajectory.json" =
    Ok (JArr [trajectory_record 0; trajectory_record 40]) /\
  read_traj world_with_camera "data/P1/S1/main_camera_trajectory.json" =
    Ok [sample 0; sample 40] /\
  BoxED_init world_with_camera (Some "data") true = Raise AttributeError /\
  exists b, BoxED_init world_with_camera (Some "data") false = Ok b /\
            map cam_traj (all_scenes b) = [[]].
Proof.
  split; [reflexivity|]. split; [reflexivity|]. split; [reflexivity|].
  eexists. split; [vm_compute; reflexivity | reflexivity].
Qed.

(** ** Object trajectories *)

Lemma select_filter {A : Type} (l : list A) (aux : list Z) (sn : Z) :
  select l (map (fun n => n =? sn) aux) =
  map fst (List.filter (fun p : A * Z => p.2 =? sn) (zip l aux)).
Proof.
  unfold select. revert aux. induction l as [|x l IH]; intros [|n aux]; simpl;
    try reflexivity.
  destruct (n =? sn); simpl; rewrite IH; reflexivity.
Qed.

(** On numbers that fit 64 bits numpy compares exactly. *)
Lemma np_equal_int64 (w : world) (nums : list Z) (n : Z) :
  Forall int64 nums -> int64 n ->
  np_equal w nums n = map (fun x => x =? n) nums.
Proof.
  intros Hnums Hn. unfold np_equal.
  apply forallb_True, Is_true_true in Hnums. apply Is_true_true in Hn.
  rewrite Hnums, Hn. reflexivity.
Qed.

Lemma files_of_scene_pool (w : world) (part_files : list string)
    (aux : list Z) (scene : Scene) :
  Forall int64 aux -> int64 (scene_num scene) ->
  files_of_scene w part_files aux scene =
  scene_pool part_files aux (scene_num scene).
Proof.
  intros Haux Hscene. unfold files_of_scene.
  rewrite np_equal_int64 by assumption. apply select_filter.
Qed.

(** A file is a candidate for the objects of a scene exactly when it stands,
    in the list of the participant, at a position whose scene number is the
    number of the scene. *)
Lemma elem_of_scene_pool (part_files : list string) (aux : list Z) (sn : Z)
    (file : string) :
  In file (scene_pool part_files aux sn) <->
  exists k, part_files !! k = Some file /\ aux !! k = Some sn.
Proof.
  unfold scene_pool. rewrite in_map_iff. split.
  - intros ([f n] & <- & Hin). apply filter_In in Hin as [Hin Hn]. simpl in *.
    apply Z.eqb_eq in Hn. subst n.
    apply list_elem_of_In, list_elem_of_lookup_1 in Hin as [k Hk].
    exists k. apply lookup_zip_Some, Hk.
  - intros (k & Hf & Hn). exists (file, sn). split; [reflexivity|].
    apply filter_In. split; [|apply Z.eqb_refl].
    apply list_elem_of_In. eapply list_elem_of_lookup_2.
    apply lookup_zip_Some. eauto.
Qed.

Lemma add_obj_traj_one_attached (w : world) (pool : list string)
    (obj obj' : ObjWithTraj) :
  add_obj_traj_one w pool obj = Ok obj' -> first_match_attached w pool obj obj'.
Proof.
  unfold add_obj_traj_one, first_match_attached.
  destruct (List.find _ pool) as [file|].
  - unfold ObjWithTraj_add_traj. intros H.
    apply bind_Ok in H as (poses & Hposes & [= <-]). simpl. eauto.
  - intros [= <-]. auto.
Qed.

Lemma add_trajectories_scene_attached (w : world) (pn : Z)
    (part_files : list string) (aux : list Z)
    (cam : option (list string * list identity)) (scene scene' : Scene) :
  add_trajectories_scene w pn part_files aux cam scene = Ok scene' ->
  scene_num scene' = scene_num scene /\
  Forall2 (first_match_attached w (files_of_scene w part_files aux scene))
          (objs_info scene) (objs_info scene').
Proof.
  unfold add_trajectories_scene. intros H.
  apply bind_Ok in H as (scene1 & H1 & H).
  assert (Heq : scene' = scene1).
  { destruct cam as [[cam_files cam_nums]|]; [|congruence].
    apply bind_Ok in H as (k & _ & H). apply bind_Ok in H as (file & _ & H).
    apply Scene_add_cam_traj_Ok in H as [_ ->]. reflexivity. }
  subst scene'. unfold Scene_add_obj_traj in H1.
  apply bind_Ok in H1 as (objs & Hobjs & [= <-]). simpl.
  split; [reflexivity|]. apply mapM_Ok_Forall2 in Hobjs.
  eapply Forall2_impl; [exact Hobjs|]. intros obj obj'.
  apply add_obj_traj_one_attached.
Qed.

(** On [world_other_scene] the only object, [011 banana] of scene 1, keeps
    an empty trajectory, although the only object trajectory file of its
    participant has [011 banana] in its name and parses to two samples: that
    file lies in the folder of scene 2. *)
Lemma trajectory_of_other_scene_not_attached :
  file_crawler world_other_scene "data" "trajectory" false =
    Ok (["data/P1/S2/011 banana_trajectory.json"], [[1; 2]]) /\
  first_match_of_participant ["data/P1/S2/011 banana_trajectory.json"] "011 banana" =
    Some "data/P1/S2/011 banana_trajectory.json" /\
  read_traj world_other_scene "data/P1/S2/011 banana_trajectory.json" =
    Ok [sample 100; sample 500] /\
  exists b, BoxED_init world_other_scene (Some "data") false = Ok b /\
            map scene_num (all_scenes b) = [1] /\
            map (fun obj => (name obj, trajectory obj))
                (flat_map objs_info (all_scenes b)) = [("011 banana", [])].
Proof.
  split; [reflexivity|]. split; [reflexivity|]. split; [reflexivity|].
  eexists. split; [vm_compute; reflexivity|]. split; reflexivity.
Qed.

(** On [world_shared_file] the objects [big box] and [box] of one scene both
    get the samples of [big box_trajectory.json]: it is the first file of the
    scene whose path contains [box], and it stays a candidate after it has
    been attached to [big box]. *)
Example same_file_for_two_objects :
  file_crawler world_shared_file "data" "trajectory" false =
    Ok (["data/P1/S1/big box_trajectory.json"; "data/P1/S1/box_trajectory.json"],
        [[1; 1]; [1; 1]]) /\
  exists b, BoxED_init world_shared_file (Some "data") false = Ok b /\
            map (fun obj => (name obj, trajectory obj))
                (flat_map objs_info (all_scenes b)) =
              [("big box", [sample 1; sample 2]); ("box", [sample 1; sample 2])].
Proof.
  split; [reflexivity|]. eexists. split; [vm_compute; reflexivity | reflexivity].
Qed.

(** C2, as the code has it, for scene numbers that fit a signed 64-bit
    integer (where the comparison of numpy is exact):
    [Participant.add_trajectories] leaves the scene numbers and the names as
    they are and, for every object of every scene,
    appends to its trajectory the samples parsed from the first file, in the
    order of the list, among the object trajectory files of the participant
    whose scene number is the number of the scene, whose path contains the
    name of the object; an object without such a file keeps its trajectory.
    The candidates are the same for all the objects of a scene: a file that
    has been attached to one object can be attached to another. *)
Theorem add_trajectories_first_match (w : world) (part part' : Participant)
    (part_files : list string) (part_scene_nums : list identity)
    (cam : option (list string * list identity)) :
  Forall (fun scene => int64 (scene_num scene)) (scenes part) ->
  Forall (fun nums => forall sn, nums !! 1%nat = Some sn -> int64 sn)
         part_scene_nums ->
  Participant_add_trajectories w part part_files part_scene_nums cam = Ok part' ->
  exists aux_scene_nums,
    Forall2 (fun nums sn => nums !! 1%nat = Some sn) part_scene_nums aux_scene_nums /\
    part_num part' = part_num part /\
    Forall2 (fun scene scene' =>
               scene_num scene' = scene_num scene /\
               Forall2 (first_match_attached w
                          (scene_pool part_files aux_scene_nums (scene_num scene)))
                       (objs_info scene) (objs_info scene'))
            (scenes part) (scenes part').
Proof.
  unfold Participant_add_trajectories. intros Hscenes Hnums H.
  apply bind_Ok in H as (aux & Haux & H).
  apply bind_Ok in H as (new_scenes & Hs & [= <-]). simpl.
  assert (Hsnd : Forall2 (fun nums sn => nums !! 1%nat = Some sn)
                         part_scene_nums aux).
  { apply mapM_Ok_Forall2 in Haux. eapply Forall2_impl; [exact Haux|].
    intros nums sn Hget. unfold tuple_get, list_get in Hget.
    match type of Hget with
    | match ?o with _ => _ end = _ => destruct o as [x|] eqn:Hx
    end; [injection Hget as ->; exact Hx | discriminate Hget]. }
  assert (H64 : Forall int64 aux).
  { clear -Hnums Hsnd. induction Hsnd as [|nums sn l aux Hsn _ IH];
      [constructor|].
    inversion Hnums; subst. constructor; auto. }
  exists aux. split; [exact Hsnd|]. split; [reflexivity|].
  apply mapM_Ok_Forall2 in Hs. clear -Hs Hscenes H64.
  induction Hs as [|scene scene' l l' Hscene _ IH]; [constructor|].
  inversion Hscenes; subst. constructor; [|auto].
  apply add_trajectories_scene_attached in Hscene.
  rewrite files_of_scene_pool in Hscene by assumption. exact Hscene.
Qed.

Lemma add_trajectories_first_match_witness :
  exists aux_scene_nums,
    Forall2 (fun nums sn => nums !! 1%nat = Some sn) [[1; 1]] aux_scene_nums /\
    part_num (participant_banana [sample 100; sample 500]) =
      part_num (participant_banana []) /\
    Forall2 (fun scene scene' =>
               scene_num scene' = scene_num scene /\
               Forall2 (first_match_attached world_with_camera
                          (scene_pool ["data/P1/S1/011 banana_trajectory.json"]
                                      aux_scene_nums (scene_num scene)))
                       (objs_info scene) (objs_info scene'))
            (scenes (participant_banana []))
            (scenes (participant_banana [sample 100; sample 500])).
Proof.
  apply (add_trajectories_first_match world_with_camera (participant_banana [])
           (participant_banana [sample 100; sample 500])
           ["data/P1/S1/011 banana_trajectory.json"] [[1; 1]] None).
  - repeat constructor.
  - constructor; [|constructor]. intros sn [= <-]. exact I.
  - vm_compute. reflexivity.
Defined.

(** ** The loop of [load_pick_place] *)

(** The third test of the loop never adds a participant: when it runs,
    [start_idx] is either [i] or the start of a run that contains [i]. *)
Lemma special_case_never_runs (w : world) (pickplace_files : list string)
    (part_scene_nums : list identity) (st : nat * list Participant) (i : nat) :
  pick_place_step w pickplace_files part_scene_nums st i =
  pick_place_step_two_tests w pickplace_files part_scene_nums st i.
Proof.
  unfold pick_place_step, pick_place_step_two_tests.
  destruct (part_at part_scene_nums st.1) as [a|e] eqn:Ha;
    cbn [bind]; [|reflexivity].
  destruct (part_at part_scene_nums i) as [b|e] eqn:Hb;
    cbn [bind]; [|reflexivity].
  destruct (Z.eqb_spec a b) as [Hab | Hab]; cbn [negb andb].
  - destruct (i =? length part_scene_nums - 1)%nat eqn:Hi; cbn [bind].
    + destruct (add_participant _ _ _ _) as [parts|e]; cbn [bind fst snd];
        [|reflexivity].
      rewrite Ha. cbn [bind]. subst b. rewrite Z.eqb_refl. reflexivity.
    + destruct st; reflexivity.
  - destruct (add_participant _ _ _ _) as [parts|e]; cbn [bind fst snd];
      [|reflexivity].
    destruct (i =? length part_scene_nums - 1)%nat; [|reflexivity].
    rewrite Hb. cbn [bind]. rewrite Z.eqb_refl. reflexivity.
Qed.

(** ** The camera files of a participant are taken out of its lists *)

Section Hits.
Context {A : Type} (P : A -> bool).





End Hits.

Instance gtb_strict : StrictTotal gtb.
Proof.
  unfold gtb. split.
  - intros x. apply Nat.ltb_irrefl.
  - intros x y z. rewrite !Nat.ltb_lt. lia.
  - intros x y. rewrite !Nat.ltb_ge. lia.
Qed.









(** ** More on [file_crawler] *)

Lemma str_find_nil (sub : string) :
  str_find sub EmptyString = if String.prefix sub EmptyString then 0 else -1.
Proof. reflexivity. Qed.

Lemma str_find_cons (sub : string) (c : ascii) (s : string) :
  str_find sub (String c s) =
  if String.prefix sub (String c s) then 0
  else if str_find sub s =? -1 then -1 else str_find sub s + 1.
Proof. reflexivity. Qed.

Lemma str_find_ge (sub s : string) : -1 <= str_find sub s.
Proof.
  induction s as [|c s IH].
  - rewrite str_find_nil. destruct (String.prefix sub EmptyString); lia.
  - rewrite str_find_cons. destruct (String.prefix sub (String c s)); [lia|].
    destruct (Z.eqb_spec (str_find sub s) (-1)); lia.
Qed.

Lemma str_in_cons (sub : string) (c : ascii) (s : string) :
  str_in sub s = true -> str_in sub (String c s) = true.
Proof.
  unfold str_in. rewrite str_find_cons. intros H.
  destruct (String.prefix sub (String c s)); [reflexivity|].
  apply negb_true_iff, Z.eqb_neq in H. pose proof (str_find_ge sub s).
  destruct (Z.eqb_spec (str_find sub s) (-1)); [contradiction|].
  apply negb_true_iff, Z.eqb_neq. lia.
Qed.

Lemma str_in_app (sub pre s : string) :
  str_in sub s = true -> str_in sub (pre +:+ s) = true.
Proof.
  intros H. induction pre as [|c pre IH]; [exact H|].
  change (String c pre +:+ s) with (String c (pre +:+ s)).
  apply str_in_cons, IH.
Qed.

Lemma path_join_suffix (path nm : string) :
  exists pre, path_join path nm = pre +:+ nm.
Proof.
  unfold path_join. destruct (String.prefix "/" nm); [exists EmptyString; reflexivity|].
  destruct (String.length path =? 0)%nat; [exists EmptyString; reflexivity|].
  destruct (String.eqb (slice_last 1 path) "/"); [exists path; reflexivity|].
  exists (path +:+ "/").
  induction path as [|c path IH]; [reflexivity|].
  change (String c (path +:+ "/" +:+ nm) = String c ((path +:+ "/") +:+ nm)).
  f_equal. exact IH.
Qed.

Lemma str_in_path_join (target path nm : string) :
  str_in target nm = true -> str_in target (path_join path nm) = true.
Proof.
  intros H. destruct (path_join_suffix path nm) as [pre ->].
  apply str_in_app, H.
Qed.

(** X1: without [uniq_seqs], [file_crawler] returns every file below the
    root whose name contains the target exactly once, each with the tuple of
    its folder, and the path of every returned file contains the target. *)
Theorem file_crawler_complete (w : world) (root target : string) :
  exists f, file_crawler w root target false = Ok f /\
    zip f.2 f.1 ≡ₚ all_matches w root target /\
    Forall (fun p => str_in target p = true) f.1.
Proof.
  rewrite file_crawler_returns. eexists. split; [reflexivity|]. simpl. split.
  - rewrite zip_map_fst_snd. apply py_sorted_perm.
  - apply Forall_forall. intros p Hp.
    apply list_elem_of_In, in_map_iff in Hp as ([id q] & <- & Hin). simpl.
    apply list_elem_of_In in Hin. rewrite (py_sorted_perm entry_ltb) in Hin.
    apply elem_of_all_matches in Hin as (d & files & nm & _ & _ & Ht & [= _ ->]).
    apply str_in_path_join, Ht.
Qed.

Lemma keeps_unique_spec (id : identity) :
  keeps_unique id = true <->
  exists part rest, id = part :: 1 :: rest /\ 26 <= part.
Proof.
  unfold keeps_unique. destruct id as [|part [|scene rest]].
  - split; [discriminate | intros (? & ? & [=] & _)].
  - split; [discriminate | intros (? & ? & [=] & _)].
  - rewrite andb_true_iff, negb_true_iff, Z.eqb_eq, Z.ltb_ge. split.
    + intros [-> Hp]. eauto.
    + intros (p & r & [= -> -> ->] & Hp). auto.
Qed.

(** With [uniq_seqs], a file in a folder with at least two digit runs is
    kept or skipped by [keeps_unique]. *)
Lemma crawl_file_unique (target path : string) (es : list entry) (nm : string) :
  (2 <= length (part_scene_number path))%nat ->
  crawl_file target true path (map snd es, map fst es) nm =
  Ok (map snd (es ++ List.filter (fun e : entry => keeps_unique e.1)
                                 (matches_in target (path, [nm]))),
      map fst (es ++ List.filter (fun e : entry => keeps_unique e.1)
                                 (matches_in target (path, [nm])))).
Proof.
  intros Hlen. unfold crawl_file, matches_in. simpl.
  destruct (str_in target nm); simpl; [|rewrite app_nil_r; reflexivity].
  destruct (part_scene_number path) as [|part [|scene rest]] eqn:E;
    simpl in Hlen; try lia.
  unfold tuple_get, list_get. simpl.
  destruct (Z.eqb_spec scene 1); simpl.
  - destruct (part <? 26); simpl; [rewrite app_nil_r|rewrite !map_app];
      reflexivity.
  - rewrite app_nil_r. reflexivity.
Qed.

Lemma crawl_dir_unique (target : string) (d : string * list string)
    (es : list entry) :
  (Forall (fun e : entry => (2 <= length e.1)%nat) (matches_in target d)) ->
  crawl_dir target true (map snd es, map fst es) d =
  Ok (map snd (es ++ List.filter (fun e : entry => keeps_unique e.1)
                                 (matches_in target d)),
      map fst (es ++ List.filter (fun e : entry => keeps_unique e.1)
                                 (matches_in target d))).
Proof.
  unfold crawl_dir. destruct d as [path files]. simpl.
  revert es. induction files as [|nm files IH]; intros es Hall.
  - simpl. rewrite app_nil_r. reflexivity.
  - rewrite (matches_in_cons target path nm files) in Hall |- *.
    apply Forall_app in Hall as [Hnm Hall].
    rewrite List.filter_app, !app_assoc. simpl.
    destruct (str_in target nm) eqn:Hin.
    + rewrite crawl_file_unique.
      2:{ unfold matches_in in Hnm. simpl in Hnm. rewrite Hin in Hnm.
          inversion Hnm; assumption. }
      simpl. apply IH, Hall.
    + unfold crawl_file at 1. rewrite Hin. simpl.
      unfold matches_in at 1 3. simpl. rewrite Hin. simpl.
      rewrite !app_nil_r. apply IH, Hall.
Qed.

Lemma crawl_unique (w : world) (root target : string) :
  Forall (fun e : entry => (2 <= length e.1)%nat) (all_matches w root target) ->
  crawl w root target true =
  Ok (map snd (List.filter (fun e : entry => keeps_unique e.1)
                           (all_matches w root target)),
      map fst (List.filter (fun e : entry => keeps_unique e.1)
                           (all_matches w root target))).
Proof.
  unfold crawl, all_matches.
  assert (G : forall ds (es : list entry),
    Forall (fun e : entry => (2 <= length e.1)%nat)
           (flat_map (matches_in target) ds) ->
    foldM (crawl_dir target true) (map snd es, map fst es) ds =
    Ok (map snd (es ++ List.filter (fun e : entry => keeps_unique e.1)
                                   (flat_map (matches_in target) ds)),
        map fst (es ++ List.filter (fun e : entry => keeps_unique e.1)
                                   (flat_map (matches_in target) ds)))).
  { induction ds as [|d ds IH]; intros es Hall; simpl.
    - rewrite app_nil_r. reflexivity.
    - simpl in Hall. apply Forall_app in Hall as [Hd Hall].
      rewrite crawl_dir_unique by exact Hd. simpl. rewrite IH by exact Hall.
      rewrite List.filter_app, !app_assoc. reflexivity. }
  intros Hall. apply (G _ [] Hall).
Qed.

(** When the walk returns with [uniq_seqs], no matching file lies in a
    folder with fewer than two digit runs. *)
Lemma crawl_unique_Ok (w : world) (root target : string) (c : found) :
  crawl w root target true = Ok c ->
  Forall (fun e : entry => (2 <= length e.1)%nat) (all_matches w root target).
Proof.
  intros Hc. apply Forall_forall. intros e He.
  destruct (le_lt_dec 2 (length e.1)) as [Hle | Hlt]; [exact Hle|]. exfalso.
  apply elem_of_all_matches in He as (d & files & nm & Hd & Hnm & Hin & ->).
  rewrite (crawl_short w root target d files nm Hd Hnm Hin Hlt) in Hc.
  discriminate Hc.
Qed.

(** X2: with [uniq_seqs], [file_crawler] returns exactly when every matching
    file lies in a folder whose path has at least two digit runs, and it then
    returns, sorted, the matching files whose second number is 1 and whose
    first number is at least 26, and no other file. *)
Theorem file_crawler_unique (w : world) (root target : string) (f : found) :
  file_crawler w root target true = Ok f <->
  Forall (fun e : entry => (2 <= length e.1)%nat) (all_matches w root target) /\
  zip f.2 f.1 =
    py_sorted entry_ltb
      (List.filter (fun e : entry => keeps_unique e.1) (all_matches w root target)) /\
  length f.1 = length f.2.
Proof.
  unfold file_crawler. split.
  - intros H. apply bind_Ok in H as (c & Hc & [= <-]).
    pose proof (crawl_unique_Ok _ _ _ _ Hc) as Hall.
    rewrite (crawl_unique _ _ _ Hall) in Hc. injection Hc as <-.
    rewrite sort_found_paired. simpl.
    rewrite zip_map_fst_snd, !length_map. auto.
  - intros (Hall & Hzip & Hlen). rewrite (crawl_unique _ _ _ Hall). simpl.
    rewrite sort_found_paired, <- Hzip. f_equal.
    destruct f as [paths ids]. simpl in *.
    rewrite map_snd_zip, map_fst_zip by lia. reflexivity.
Qed.

(** X3: every tuple that [file_crawler] returns with [uniq_seqs] is a tuple
    of the first scene of a participant numbered 26 or more. *)
Theorem file_crawler_unique_ids (w : world) (root target : string) (f : found) :
  file_crawler w root target true = Ok f ->
  Forall (fun id => exists part rest, id = part :: 1 :: rest /\ 26 <= part) f.2.
Proof.
  intros H. apply file_crawler_entries in H as (es & _ & Hc & ->). simpl.
  pose proof (crawl_unique_Ok _ _ _ _ Hc) as Hall.
  rewrite (crawl_unique _ _ _ Hall) in Hc. injection Hc as Hp Hi.
  apply Forall_forall. intros id Hid.
  apply list_elem_of_In, in_map_iff in Hid as (e & <- & He).
  apply list_elem_of_In in He. rewrite (py_sorted_perm entry_ltb) in He.
  apply list_elem_of_In, (in_map fst) in He. rewrite <- Hi in He.
  apply in_map_iff in He as (e' & Heq & He'). apply filter_In in He' as [_ Hk].
  rewrite <- Heq. apply keeps_unique_spec, Hk.
Qed.

Example file_crawler_unique_example :
  file_crawler world_unique "data" "PickPlace_dataset" true =
    Ok (["data/P26/S1/PickPlace_dataset.json"; "data/P27/S1/PickPlace_dataset.json"],
        [[26; 1]; [27; 1]]).
Proof. reflexivity. Qed.

Lemma file_crawler_unique_ids_witness :
  Forall (fun id => exists part rest, id = part :: 1 :: rest /\ 26 <= part)
         [[26; 1]; [27; 1]].
Proof.
  exact (file_crawler_unique_ids world_unique "data" "PickPlace_dataset"
           (["data/P26/S1/PickPlace_dataset.json"; "data/P27/S1/PickPlace_dataset.json"],
            [[26; 1]; [27; 1]]) eq_refl).
Defined.

(** ** The digit runs of a path *)

Lemma list_ascii_app (s t : string) :
  list_ascii_of_string (s +:+ t) = list_ascii_of_string s ++ list_ascii_of_string t.
Proof.
  induction s as [|c s IH]; [reflexivity|].
  change (String c s +:+ t) with (String c (s +:+ t)). simpl. rewrite IH.
  reflexivity.
Qed.

Lemma all_digits_snoc (run : string) (c : ascii) :
  all_digits run = true -> is_digit c = true ->
  all_digits (run +:+ String c EmptyString) = true.
Proof.
  unfold all_digits. intros Hrun Hc. rewrite list_ascii_app, forallb_app, Hrun.
  simpl. rewrite Hc. reflexivity.
Qed.

Lemma length_snoc_pos (run : string) (c : ascii) :
  (String.length (run +:+ String c EmptyString) =? 0)%nat = false.
Proof. destruct run; reflexivity. Qed.

Lemma findall_digits_from_runs (run s : string) :
  all_digits run = true ->
  Forall (fun r => all_digits r = true /\ r <> EmptyString)
         (findall_digits_from run s).
Proof.
  revert run. induction s as [|c s IH]; intros run Hrun; simpl.
  - destruct run; simpl; constructor; [|constructor]. split; [exact Hrun | discriminate].
  - destruct (is_digit c) eqn:Hc; [apply IH, all_digits_snoc; assumption|].
    destruct run as [|a run]; simpl; [apply IH; reflexivity|].
    constructor; [split; [exact Hrun | discriminate] | apply IH; reflexivity].
Qed.

Lemma digit_val_range (c : ascii) : is_digit c = true -> 0 <= digit_val c <= 9.
Proof.
  unfold is_digit, digit_val. rewrite andb_true_iff, !N.leb_le. lia.
Qed.

Lemma int_of_digits_from_nonneg (acc : Z) (s : string) :
  0 <= acc -> all_digits s = true -> 0 <= int_of_digits_from acc s.
Proof.
  revert acc. induction s as [|c s IH]; intros acc Hacc Hs; simpl; [exact Hacc|].
  unfold all_digits in Hs. simpl in Hs. apply andb_true_iff in Hs as [Hc Hs].
  apply IH; [|exact Hs]. pose proof (digit_val_range c Hc). lia.
Qed.

Lemma findall_digits_from_nil (run s : string) :
  findall_digits_from run s = [] <-> run = EmptyString /\ no_digit s = true.
Proof.
  revert run. induction s as [|c s IH]; intros run; simpl.
  - destruct run; simpl; split; try discriminate; auto. intros [[=] _].
  - unfold no_digit. simpl. fold (no_digit s). destruct (is_digit c) eqn:Hc; simpl.
    + rewrite IH. split; [|intros [_ [=]]]. intros [H _]. destruct run; discriminate H.
    + destruct run as [|a run]; simpl.
      * rewrite IH. tauto.
      * split; [discriminate | intros [[=] _]].
Qed.

(** X4: the numbers that [file_crawler] reads from a path are never
    negative, and the tuple is empty exactly when the path has no digit. *)
Theorem part_scene_number_nonneg (path : string) :
  Forall (fun n => 0 <= n) (part_scene_number path) /\
  (part_scene_number path = [] <-> no_digit path = true).
Proof.
  unfold part_scene_number, findall_digits. split.
  - apply Forall_forall. intros n Hn.
    apply list_elem_of_In, in_map_iff in Hn as (r & <- & Hr).
    pose proof (findall_digits_from_runs EmptyString path eq_refl) as Hall.
    rewrite Forall_forall in Hall. apply list_elem_of_In, Hall in Hr as [Hr _].
    apply int_of_digits_from_nonneg; [lia | exact Hr].
  - split.
    + intros H. apply map_eq_nil in H.
      apply findall_digits_from_nil in H as [_ H]. exact H.
    + intros H.
      rewrite (proj2 (findall_digits_from_nil EmptyString path) (conj eq_refl H)).
      reflexivity.
Qed.

Lemma string_app_assoc (s t u : string) : (s +:+ t) +:+ u = s +:+ t +:+ u.
Proof.
  induction s as [|c s IH]; [reflexivity|].
  change (String c ((s +:+ t) +:+ u) = String c (s +:+ t +:+ u)). f_equal. exact IH.
Qed.

Lemma string_app_nil_r (s : string) : s +:+ EmptyString = s.
Proof.
  induction s as [|c s IH]; [reflexivity|].
  change (String c (s +:+ EmptyString) = String c s). f_equal. exact IH.
Qed.

Lemma findall_digits_from_digits (run d s : string) :
  all_digits d = true ->
  findall_digits_from run (d +:+ s) = findall_digits_from (run +:+ d) s.
Proof.
  revert run. induction d as [|c d IH]; intros run Hd.
  - rewrite string_app_nil_r. reflexivity.
  - unfold all_digits in Hd. simpl in Hd. apply andb_true_iff in Hd as [Hc Hd].
    change (String c d +:+ s) with (String c (d +:+ s)). simpl. rewrite Hc.
    rewrite IH by exact Hd. rewrite string_app_assoc. reflexivity.
Qed.

Lemma findall_digits_from_gap (a s : string) :
  no_digit a = true ->
  findall_digits_from EmptyString (a +:+ s) = findall_digits_from EmptyString s.
Proof.
  induction a as [|c a IH]; intros Ha; [reflexivity|].
  unfold no_digit in Ha. simpl in Ha. apply andb_true_iff in Ha as [Hc Ha].
  apply negb_true_iff in Hc.
  change (String c a +:+ s) with (String c (a +:+ s)). simpl. rewrite Hc.
  apply IH, Ha.
Qed.

Lemma findall_digits_from_close (run a s : string) :
  run <> EmptyString -> a <> EmptyString -> no_digit a = true ->
  findall_digits_from run (a +:+ s) = run :: findall_digits_from EmptyString s.
Proof.
  intros Hrun Hne Ha. destruct a as [|c a]; [contradiction|].
  unfold no_digit in Ha. simpl in Ha. apply andb_true_iff in Ha as [Hc Ha].
  apply negb_true_iff in Hc.
  change (String c a +:+ s) with (String c (a +:+ s)). simpl. rewrite Hc.
  destruct run as [|r run]; [contradiction|]. simpl. f_equal.
  apply findall_digits_from_gap, Ha.
Qed.

Lemma findall_digits_from_end (run a : string) :
  run <> EmptyString -> no_digit a = true -> findall_digits_from run a = [run].
Proof.
  intros Hrun Ha. destruct a as [|c a].
  - destruct run; [contradiction | reflexivity].
  - rewrite <- (string_app_nil_r (String c a)).
    rewrite findall_digits_from_close; [reflexivity | exact Hrun | discriminate | exact Ha].
Qed.

(** X5: a folder path made of two runs of digits, separated and surrounded
    by characters that are no digits, gives the pair of the two numbers: the
    first run is the participant and the second is the scene. *)
Theorem part_scene_number_two_runs (a d1 b d2 c : string) :
  no_digit a = true -> all_digits d1 = true -> d1 <> EmptyString ->
  no_digit b = true -> b <> EmptyString ->
  all_digits d2 = true -> d2 <> EmptyString -> no_digit c = true ->
  part_scene_number (a +:+ d1 +:+ b +:+ d2 +:+ c) =
  [int_of_digits d1; int_of_digits d2].
Proof.
  intros Ha Hd1 Hn1 Hb Hnb Hd2 Hn2 Hc. unfold part_scene_number, findall_digits.
  rewrite findall_digits_from_gap by exact Ha.
  rewrite findall_digits_from_digits by exact Hd1.
  change (EmptyString +:+ d1) with d1.
  rewrite findall_digits_from_close by assumption.
  rewrite findall_digits_from_digits by exact Hd2.
  change (EmptyString +:+ d2) with d2.
  rewrite findall_digits_from_end by assumption. reflexivity.
Qed.

Lemma part_scene_number_two_runs_witness :
  part_scene_number ("data/P" +:+ "26" +:+ "/S" +:+ "1" +:+ "") = [26; 1].
Proof.
  apply (part_scene_number_two_runs "data/P" "26" "/S" "1" "");
    try reflexivity; discriminate.
Defined.

(** ** More on [get_clean_name] *)

Lemma find_char_cons (c a : ascii) (s : string) :
  str_find (String c EmptyString) (String a s) =
  if Ascii.eqb c a then 0
  else if str_find (String c EmptyString) s =? -1 then -1
       else str_find (String c EmptyString) s + 1.
Proof.
  rewrite str_find_cons. simpl.
  destruct (ascii_dec c a) as [-> | Hne].
  - rewrite Ascii.eqb_refl. destruct s; reflexivity.
  - apply Ascii.eqb_neq in Hne. rewrite Hne. reflexivity.
Qed.

(** A character that does not occur before position [k] does not occur in
    the first [k] characters. *)
Lemma find_char_substring (c : ascii) (s : string) (k : nat) :
  str_find (String c EmptyString) s = -1 \/
    Z.of_nat k <= str_find (String c EmptyString) s ->
  str_find (String c EmptyString) (String.substring 0 k s) = -1.
Proof.
  revert k. induction s as [|a s IH]; intros k H.
  - destruct k; reflexivity.
  - destruct k as [|k]; [reflexivity|]. simpl String.substring.
    rewrite find_char_cons in H |- *. destruct (Ascii.eqb c a); [lia|].
    pose proof (str_find_ge (String c EmptyString) s) as Hge.
    rewrite IH; [reflexivity|].
    destruct (Z.eqb_spec (str_find (String c EmptyString) s) (-1)); [auto | right; lia].
Qed.

(** X6: for a name that does not begin with a bracket or a hyphen, the
    result of [get_clean_name] contains neither of them, and cleaning it
    again changes nothing. *)
Theorem get_clean_name_no_delimiter (name : string) :
  str_find "(" name <> 0 -> str_find "-" name <> 0 ->
  str_find "(" (get_clean_name name) = -1 /\
  str_find "-" (get_clean_name name) = -1 /\
  get_clean_name (get_clean_name name) = get_clean_name name.
Proof.
  intros H1 H2.
  assert (G : str_find "(" (get_clean_name name) = -1 /\
              str_find "-" (get_clean_name name) = -1).
  { pose proof (str_find_ge "(" name) as G1.
    pose proof (str_find_ge "-" name) as G2.
    unfold get_clean_name, slice_to.
    set (i1 := str_find "(" name) in *. set (i2 := str_find "-" name) in *.
    split; apply find_char_substring; fold i1 i2;
      destruct (Z.eqb_spec i1 (-1)), (Z.eqb_spec i2 (-1)); simpl;
      repeat match goal with
             | |- context [if ?b then _ else _] =>
                 let E := fresh in destruct b eqn:E
             | H : (_ <? _) = true |- _ => apply Z.ltb_lt in H
             | H : (_ <? _) = false |- _ => apply Z.ltb_ge in H
             end; unfold len in *; lia. }
  destruct G as [G1 G2]. split; [exact G1|]. split; [exact G2|].
  apply get_clean_name_plain; assumption.
Qed.

Lemma get_clean_name_no_delimiter_witness :
  str_find "(" (get_clean_name "010 box(clone)-29932") = -1 /\
  str_find "-" (get_clean_name "010 box(clone)-29932") = -1 /\
  get_clean_name (get_clean_name "010 box(clone)-29932") =
    get_clean_name "010 box(clone)-29932".
Proof.
  apply (get_clean_name_no_delimiter "010 box(clone)-29932");
    intros H; vm_compute in H; discriminate H.
Defined.

(** ** [get_sequences] *)

Lemma flat_map_singleton {A B : Type} (f : A -> B) (l : list A) :
  flat_map (fun x => [f x]) l = map f l.
Proof. induction l as [|x l IH]; simpl; [reflexivity | rewrite IH; reflexivity]. Qed.

Lemma flat_map_flat_map {A B C : Type} (f : A -> list B) (g : B -> list C)
    (l : list A) :
  flat_map g (flat_map f l) = flat_map (fun x => flat_map g (f x)) l.
Proof.
  induction l as [|x l IH]; simpl; [reflexivity|].
  rewrite flat_map_app, IH. reflexivity.
Qed.

Lemma filter_sublist {A : Type} (P : A -> bool) (l : list A) :
  sublist (List.filter P l) l.
Proof.
  induction l as [|x l IH]; simpl; [constructor|].
  destruct (P x); [apply sublist_skip | apply sublist_cons]; exact IH.
Qed.

(** X7: without the filter, [get_sequences] returns one sequence per scene,
    in the order of the participants and of their scenes: the names of the
    objects of the scene in packing order; the start token only prepends
    [<start>] to each of these sequences. *)
Theorem get_sequences_all (b : BoxED) (unique_objs_only : bool) :
  get_sequences b false false =
    map (fun scene => map name (objs_info scene)) (all_scenes b) /\
  get_sequences b unique_objs_only true =
    map (cons "<start>") (get_sequences b unique_objs_only false).
Proof.
  unfold get_sequences, all_scenes. split.
  - simpl. rewrite <- flat_map_singleton, flat_map_flat_map. reflexivity.
  - induction (participants b) as [|p ps IH]; simpl; [reflexivity|].
    rewrite map_app, IH. f_equal.
    destruct (unique_objs_only && (part_num p <? UNIQ_OBJS)); [reflexivity|].
    induction (scenes p) as [|s ss IHs]; simpl; [reflexivity|].
    rewrite map_app, IHs. f_equal.
    destruct (unique_objs_only && (2 <=? scene_num s)); reflexivity.
Qed.

(** X8: with [unique_objs_only], [get_sequences] returns the sequences of
    the scenes numbered below 2 of the participants numbered 26 or more, and
    of no other scene: the sequences of the restricted dataset. *)
Theorem get_sequences_unique (b : BoxED) (start_token : bool) :
  get_sequences b true start_token =
    get_sequences (unique_part b) false start_token /\
  sublist (get_sequences b true start_token) (get_sequences b false start_token).
Proof.
  unfold get_sequences, unique_part, UNIQ_OBJS. simpl.
  induction (participants b) as [|p ps [IH1 IH2]]; simpl; [split; constructor|].
  assert (Hs : flat_map (fun scene =>
                 if 2 <=? scene_num scene then []
                 else [if start_token then "<start>" :: map name (objs_info scene)
                       else map name (objs_info scene)]) (scenes p) =
               flat_map (fun scene =>
                 [if start_token then "<start>" :: map name (objs_info scene)
                  else map name (objs_info scene)])
                 (List.filter (fun s => scene_num s <? 2) (scenes p))).
  { induction (scenes p) as [|s ss IHs]; simpl; [reflexivity|].
    destruct (Z.leb_spec 2 (scene_num s)), (Z.ltb_spec (scene_num s) 2);
      try lia; simpl; rewrite IHs; reflexivity. }
  split.
  - destruct (Z.ltb_spec (part_num p) 26), (Z.leb_spec 26 (part_num p));
      try lia; simpl; [exact IH1|]. rewrite IH1, Hs. reflexivity.
  - apply sublist_app; [|exact IH2].
    destruct (part_num p <? 26); [apply sublist_nil_l|]. rewrite Hs.
    rewrite !flat_map_singleton, !map_fmap. apply fmap_sublist, filter_sublist.
Qed.

(** ** The dictionary of [get_grasp_poses] *)

Lemma foldl_flat_map {A B C : Type} (g : C -> B -> C) (h : A -> list B)
    (l : list A) (acc : C) :
  foldl (fun acc' x => foldl g acc' (h x)) acc l = foldl g acc (flat_map h l).
Proof.
  revert acc. induction l as [|x l IH]; intros acc; simpl; [reflexivity|].
  rewrite foldl_app. apply IH.
Qed.

(** The poses of a name after a loop over [objs] that started from a
    dictionary in which the name had the poses [before]. *)
Lemma foldl_add_grasp (grasp_type : string) (targets : list string)
    (objs : list ObjWithTraj) (acc : gmap string (list Pose)) (nm : string) :
  foldl (add_grasp grasp_type targets) acc objs !! nm =
  if str_mem nm targets then
    match acc !! nm, poses_named grasp_type nm objs with
    | None, [] => None
    | None, ps => Some ps
    | Some before, ps => Some (before ++ ps)
    end
  else acc !! nm.
Proof.
  revert acc. induction objs as [|obj objs IH]; intros acc.
  - simpl. destruct (str_mem nm targets); [|reflexivity].
    destruct (acc !! nm); [rewrite app_nil_r|]; reflexivity.
  - simpl. rewrite IH. unfold add_grasp, poses_named. simpl.
    fold (grasp_of grasp_type obj).
    destruct (String.eqb_spec (name obj) nm) as [-> | Hne].
    + destruct (str_mem nm targets); [|reflexivity].
      destruct (acc !! nm) as [before|] eqn:Hacc; rewrite lookup_insert_eq.
      * simpl. rewrite <- app_assoc. reflexivity.
      * reflexivity.
    + destruct (str_mem (name obj) targets); [|reflexivity].
      destruct (acc !! name obj); rewrite lookup_insert_ne by exact Hne;
        reflexivity.
Qed.

(** X9: when the arguments pass the checks, the dictionary of
    [get_grasp_poses] has a key for exactly the requested names that some
    object of the dataset bears, and the value of a name is the list of the
    pick (or place) poses of the objects of that name, in the order of the
    participants, of their scenes and of the packing. *)
Theorem get_grasp_poses_lookup (b : BoxED) (grasp_type : string) (objs : pyval)
    (targets : list string) :
  grasp_targets grasp_type objs = ([], Ok targets) ->
  exists d, get_grasp_poses b grasp_type objs = ([], Ok d) /\
    forall nm, d !! nm =
      if str_mem nm targets then
        match poses_named grasp_type nm (all_objs b) with
        | [] => None
        | ps => Some ps
        end
      else None.
Proof.
  intros Ht. unfold get_grasp_poses. rewrite Ht. simpl. eexists.
  split; [reflexivity|]. intros nm.
  rewrite foldl_flat_map, foldl_flat_map, foldl_add_grasp, lookup_empty.
  unfold all_objs, all_scenes. reflexivity.
Qed.

Lemma get_grasp_poses_lookup_witness :
  exists d, get_grasp_poses dataset_two_objects "pick" (PStr "011 banana") = ([], Ok d) /\
    forall nm, d !! nm =
      if str_mem nm ["011 banana"] then
        match poses_named "pick" nm (all_objs dataset_two_objects) with
        | [] => None
        | ps => Some ps
        end
      else None.
Proof.
  apply (get_grasp_poses_lookup dataset_two_objects "pick" (PStr "011 banana")
           ["011 banana"]).
  vm_compute. reflexivity.
Defined.

(** The names that are looked up when the arguments pass the checks. *)
Lemma grasp_targets_Ok (grasp_type : string) (objs : pyval) (targets : list string) :
  grasp_targets grasp_type objs = ([], Ok targets) ->
  targets = match objs with
            | PStr s => if String.eqb s "all" then ALL_OBJS else [s]
            | PList l => strs_of l
            | POther => []
            end /\
  Forall (fun nm => In nm ALL_OBJS) targets.
Proof.
  unfold grasp_targets.
  destruct (str_mem grasp_type ["pick"; "place"]); cbn [negb]; [|discriminate].
  destruct objs as [s | l |]; [| |discriminate].
  - destruct (String.eqb s "all").
    + intros [= <-]. split; [reflexivity|]. apply Forall_forall. intros nm Hnm.
      apply list_elem_of_In, Hnm.
    + destruct (str_mem s ALL_OBJS) eqn:Hs; [|discriminate]. intros [= <-].
      split; [reflexivity|]. constructor; [|constructor]. apply str_mem_In, Hs.
  - destruct (forallb is_str l); [|discriminate].
    destruct (forallb known_obj l) eqn:Hk; [|discriminate]. intros [= <-].
    split; [reflexivity|]. rewrite forallb_forall in Hk.
    apply Forall_forall. intros nm Hnm.
    unfold strs_of in Hnm. apply list_elem_of_In, in_flat_map in Hnm as (v & Hv & Hin).
    specialize (Hk v Hv). destruct v as [s | |]; simpl in Hin; try contradiction.
    destruct Hin as [<- | []]. apply str_mem_In, Hk.
Qed.

(** ** [int] on the last four characters of a raw name *)

Lemma rev_app_list (s1 s2 : string) :
  list_ascii_of_string (String.rev_app s1 s2) =
  rev_append (list_ascii_of_string s1) (list_ascii_of_string s2).
Proof.
  revert s2. induction s1 as [|c s1 IH]; intros s2; simpl; [reflexivity|].
  rewrite IH. reflexivity.
Qed.

Lemma string_rev_list (s : string) :
  list_ascii_of_string (String.rev s) = rev (list_ascii_of_string s).
Proof. unfold String.rev. rewrite rev_app_list, rev_append_rev, app_nil_r. reflexivity. Qed.

Lemma list_ascii_inj (s t : string) :
  list_ascii_of_string s = list_ascii_of_string t -> s = t.
Proof.
  intros H. rewrite <- (string_of_list_ascii_of_string s),
    <- (string_of_list_ascii_of_string t), H. reflexivity.
Qed.

Lemma string_rev_involutive (s : string) : String.rev (String.rev s) = s.
Proof. apply list_ascii_inj. rewrite !string_rev_list, rev_involutive. reflexivity. Qed.

Lemma all_digits_rev (s : string) : all_digits (String.rev s) = all_digits s.
Proof.
  unfold all_digits. rewrite string_rev_list.
  destruct (forallb is_digit (list_ascii_of_string s)) eqn:E.
  - rewrite forallb_forall in *. intros c Hc. apply E, in_rev, Hc.
  - destruct (forallb is_digit (rev (list_ascii_of_string s))) eqn:E'; [|reflexivity].
    rewrite <- E. symmetry. rewrite forallb_forall in *.
    intros c Hc. apply E'. rewrite <- in_rev. exact Hc.
Qed.

Lemma digit_not_space (c : ascii) : is_digit c = true -> is_space c = false.
Proof.
  unfold is_digit, is_space. rewrite andb_true_iff, !N.leb_le. intros [H1 H2].
  rewrite !orb_false_iff, !andb_false_iff, !N.leb_gt, !N.eqb_neq. lia.
Qed.

Lemma lstrip_digits (s : string) : all_digits s = true -> lstrip s = s.
Proof.
  destruct s as [|c s]; [reflexivity|]. unfold all_digits. simpl.
  intros H. apply andb_true_iff in H as [Hc _].
  rewrite (digit_not_space c Hc). reflexivity.
Qed.

Lemma strip_digits (s : string) : all_digits s = true -> strip s = s.
Proof.
  intros H. unfold strip. rewrite (lstrip_digits s H).
  rewrite lstrip_digits by (rewrite all_digits_rev; exact H).
  apply string_rev_involutive.
Qed.

Lemma int_body_digits (acc : Z) (s : string) :
  all_digits s = true -> int_body acc true s = Some (int_of_digits_from acc s).
Proof.
  revert acc. induction s as [|c s IH]; intros acc H; [reflexivity|].
  unfold all_digits in H. simpl in H. apply andb_true_iff in H as [Hc Hs].
  simpl. rewrite Hc. apply IH, Hs.
Qed.

Lemma digit_not_sign (c : ascii) (r : string) :
  is_digit c = true ->
  match String c r with
  | String "-" r' => (true, r')
  | String "+" r' => (false, r')
  | _ => (false, String c r)
  end = (false, String c r).
Proof.
  intros H. destruct c as [[] [] [] [] [] [] [] []];
    first [reflexivity | discriminate H].
Qed.

(** [int] reads a non-empty string of digits as the decimal number. *)
Lemma py_int_digits (s : string) :
  all_digits s = true -> s <> EmptyString -> py_int s = Ok (int_of_digits s).
Proof.
  intros H Hne. unfold py_int. rewrite (strip_digits s H).
  destruct s as [|c r]; [contradiction|].
  unfold all_digits in H. simpl in H. apply andb_true_iff in H as [Hc Hr].
  rewrite (digit_not_sign c r Hc). simpl. rewrite Hc.
  rewrite (int_body_digits _ r Hr). reflexivity.
Qed.

Lemma string_length_app (s t : string) :
  String.length (s +:+ t) = (String.length s + String.length t)%nat.
Proof.
  induction s as [|c s IH]; [reflexivity|].
  change (String c s +:+ t) with (String c (s +:+ t)). simpl. rewrite IH.
  reflexivity.
Qed.

Lemma slice_last_app (pre d : string) :
  slice_last (String.length d) (pre +:+ d) = d.
Proof.
  unfold slice_last. rewrite string_length_app.
  replace (String.length pre + String.length d - String.length d)%nat
    with (String.length pre) by lia.
  induction pre as [|c pre IH]; [apply substring_all|].
  change (String c pre +:+ d) with (String c (pre +:+ d)). simpl. exact IH.
Qed.

(** X10: for a raw name that ends with four digits and four pose arguments
    of which [np.asarray] makes an array, [Obj.add_obj_info] builds an object
    whose unique id is the number that the four digits denote, between 0 and
    9999, whose name is the cleaned raw name, whose poses hold the four
    arrays, and whose trajectory is empty. *)
Theorem add_obj_info_unique_id (w : world) (pre d : string)
    (pick_rot pick_trans place_rot place_trans : json)
    (pick_r pick_t place_r place_t : json) :
  String.length d = 4%nat -> all_digits d = true ->
  np_asarray w pick_rot = Ok pick_r -> np_asarray w pick_trans = Ok pick_t ->
  np_asarray w place_rot = Ok place_r -> np_asarray w place_trans = Ok place_t ->
  exists obj,
    Obj_add_obj_info w (JStr (pre +:+ d)) pick_rot pick_trans place_rot place_trans
      = Ok obj /\
    name obj = get_clean_name (pre +:+ d) /\
    unique_id obj = int_of_digits d /\ 0 <= unique_id obj <= 9999 /\
    pick_pose obj = {| rotation := pick_r; translation := pick_t |} /\
    place_pose obj = {| rotation := place_r; translation := place_t |} /\
    trajectory obj = [].
Proof.
  intros Hlen Hd Hpr Hpt Hqr Hqt. unfold Obj_add_obj_info, Pose_init.
  replace 4%nat with (String.length d). rewrite slice_last_app.
  rewrite py_int_digits; [| exact Hd | intros ->; discriminate Hlen].
  rewrite Hpr, Hpt, Hqr, Hqt.
  simpl. eexists. split; [reflexivity|]. simpl. repeat split; try reflexivity.
  - apply int_of_digits_from_nonneg; [lia | exact Hd].
  - destruct d as [|c1 [|c2 [|c3 [|c4 [|c5 d]]]]]; try discriminate Hlen.
    unfold all_digits in Hd. simpl in Hd.
    repeat (apply andb_true_iff in Hd as [?%digit_val_range Hd]).
    unfold int_of_digits. simpl. lia.
Qed.

Lemma add_obj_info_unique_id_witness :
  exists obj,
    Obj_add_obj_info world_two_participants
      (JStr ("010 box(clone)-2" +:+ "9932"))
      (JArr [JArr [JInt 1; JInt 0]; JArr [JInt 0; JInt 1]]) (JArr [JInt 3; JInt 4])
      (JArr []) (JArr []) = Ok obj /\
    name obj = get_clean_name ("010 box(clone)-2" +:+ "9932") /\
    unique_id obj = int_of_digits "9932" /\ 0 <= unique_id obj <= 9999 /\
    pick_pose obj =
      {| rotation := JArr [JArr [JInt 1; JInt 0]; JArr [JInt 0; JInt 1]];
         translation := JArr [JInt 3; JInt 4] |} /\
    place_pose obj = {| rotation := JArr []; translation := JArr [] |} /\
    trajectory obj = [].
Proof.
  apply (add_obj_info_unique_id world_two_participants "010 box(clone)-2" "9932");
    reflexivity.
Defined.

(** A ragged rotation makes [Obj.add_obj_info] raise the [ValueError] of
    [np.asarray], although the name ends with four digits. *)
Example add_obj_info_ragged_rotation :
  Obj_add_obj_info world_two_participants (JStr "010 box(clone)-29932")
    (JArr [JArr [JInt 1; JInt 0]; JArr [JInt 0]]) (JArr []) (JArr []) (JArr [])
  = Raise ValueError.
Proof. reflexivity. Qed.

(** ** The records of the files *)

Lemma Pose_init_Ok (w : world) (rot trans : json) (p : Pose) :
  Pose_init w rot trans = Ok p <->
  np_asarray w rot = Ok (rotation p) /\ np_asarray w trans = Ok (translation p).
Proof.
  unfold Pose_init. split.
  - intros H. apply bind_Ok in H as (r & Hr & H).
    apply bind_Ok in H as (t & Ht & [= <-]). auto.
  - intros [-> ->]. destruct p. reflexivity.
Qed.

Lemma load_obj_loaded_from (w : world) (item : json) (obj : ObjWithTraj) :
  load_obj w item = Ok obj -> loaded_from w item obj.
Proof.
  unfold load_obj, loaded_from. intros H.
  apply bind_Ok in H as (id & Hid & H).
  apply bind_Ok in H as (pr & Hpr & H). apply bind_Ok in H as (pt & Hpt & H).
  apply bind_Ok in H as (qr & Hqr & H). apply bind_Ok in H as (qt & Hqt & H).
  unfold Obj_add_obj_info in H. destruct id as [| | |raw| |]; try discriminate H.
  apply bind_Ok in H as (uid & Huid & H).
  apply bind_Ok in H as (pick & [Hp1 Hp2]%Pose_init_Ok & H).
  apply bind_Ok in H as (place & [Hq1 Hq2]%Pose_init_Ok & [= <-]). simpl.
  exists raw, pr, pt, qr, qt. auto 15.
Qed.

(** X11: a scene that [Scene.add_objects] returns has the number it was
    given, no camera trajectory, and one object per record of the file, in
    the order of the file: each object has the cleaned name of its record,
    the integer of the last four characters of the raw name as unique id, the
    arrays that [np.asarray] makes of the poses of the record, and an empty
    trajectory. *)
Theorem Scene_add_objects_order (w : world) (scene_file : string)
    (scene_number : Z) (scene : Scene) :
  Scene_add_objects w scene_file scene_number = Ok scene ->
  scene_num scene = scene_number /\ cam_traj scene = [] /\
  exists data items,
    json_load w scene_file = Ok data /\ py_iter data = Ok items /\
    Forall2 (loaded_from w) items (objs_info scene).
Proof.
  unfold Scene_add_objects. intros H.
  apply bind_Ok in H as (data & Hdata & H).
  apply bind_Ok in H as (items & Hitems & H).
  apply bind_Ok in H as (objs & Hobjs & [= <-]). simpl.
  split; [reflexivity|]. split; [reflexivity|]. exists data, items.
  split; [exact Hdata|]. split; [exact Hitems|].
  apply mapM_Ok_Forall2 in Hobjs. eapply Forall2_impl; [exact Hobjs|].
  apply load_obj_loaded_from.
Qed.

Lemma Scene_add_objects_order_witness :
  scene_num (Build_Scene 1 [] [Build_ObjWithTraj "011 banana" 12
      (Build_Pose (JArr [JArr [JInt 1; JInt 0; JInt 0];
                         JArr [JInt 0; JInt 1; JInt 0];
                         JArr [JInt 0; JInt 0; JInt 1]])
                  (JArr [JInt 0; JInt 0; JInt 0]))
      (Build_Pose (JArr [JArr [JInt 1; JInt 0; JInt 0];
                         JArr [JInt 0; JInt 1; JInt 0];
                         JArr [JInt 0; JInt 0; JInt 1]])
                  (JArr [JInt 0; JInt 0; JInt 5])) []] []) = 1.
Proof.
  exact (proj1 (Scene_add_objects_order world_two_participants
                  "data/P1/S1/PickPlace_dataset.json" 1 _ eq_refl)).
Defined.

(** X12: a record that is no JSON object makes [Scene.add_objects] raise
    [TypeError]; an object that lacks one of the five keys raises [KeyError];
    an object with the five keys whose [id] is no string raises
    [AttributeError]. *)
Theorem load_obj_errors (w : world) (item : json) :
  ((forall kv, item <> JObj kv) -> load_obj w item = Raise TypeError) /\
  (forall kv key, item = JObj kv -> In key pick_place_keys ->
     assoc key kv = None -> load_obj w item = Raise KeyError) /\
  (forall kv id, item = JObj kv -> assoc "id" kv = Some id ->
     (forall raw, id <> JStr raw) ->
     Forall (fun key => is_Some (assoc key kv)) pick_place_keys ->
     load_obj w item = Raise AttributeError).
Proof.
  split; [|split].
  - intros H. destruct item; try reflexivity. exfalso. eapply H. reflexivity.
  - intros kv key -> Hkey Hnone. unfold load_obj, py_getitem.
    unfold pick_place_keys in Hkey. simpl in Hkey.
    destruct (assoc "id" kv) eqn:E1; simpl;
      [|reflexivity].
    destruct (assoc "pickRotation" kv) eqn:E2; simpl; [|reflexivity].
    destruct (assoc "pickTranslation" kv) eqn:E3; simpl; [|reflexivity].
    destruct (assoc "placeRotation" kv) eqn:E4; simpl; [|reflexivity].
    destruct (assoc "placeTranslation" kv) eqn:E5; simpl; [|reflexivity].
    exfalso. destruct Hkey as [<- | [<- | [<- | [<- | [<- | []]]]]]; congruence.
  - intros kv id -> Hid Hnot Hall. unfold load_obj, py_getitem. rewrite Hid.
    unfold pick_place_keys in Hall.
    repeat match goal with
           | H : Forall _ (_ :: _) |- _ =>
               let Hk := fresh in
               apply Forall_cons in H as [[? Hk] H]; try rewrite Hk
           end.
    simpl. unfold Obj_add_obj_info. destruct id; try reflexivity.
    exfalso. eapply Hnot. reflexivity.
Qed.

Lemma load_obj_errors_witness :
  load_obj world_two_participants
    (JObj [("id", JStr "011 banana(clone)-0012")]) = Raise KeyError.
Proof.
  apply (proj1 (proj2 (load_obj_errors world_two_participants
                         (JObj [("id", JStr "011 banana(clone)-0012")])))
           [("id", JStr "011 banana(clone)-0012")] "pickRotation" eq_refl).
  - right. left. reflexivity.
  - reflexivity.
Defined.

Lemma pose_of_item_sampled (w : world) (item : json) (p : PoseWithTime) :
  pose_of_item w item = Ok p <-> sampled_from w item p.
Proof.
  unfold pose_of_item, sampled_from, PoseWithTime_init. split.
  - intros H. apply bind_Ok in H as (r & Hr & H).
    apply bind_Ok in H as (t & Ht & H). apply bind_Ok in H as (ts & Hts & H).
    apply bind_Ok in H as (q & [Hq1 Hq2]%Pose_init_Ok & [= <-]).
    exists r, t. auto.
  - intros (r & t & -> & -> & -> & Hr & Ht). cbn [bind].
    rewrite (proj2 (Pose_init_Ok w r t (pose p)) (conj Hr Ht)).
    destruct p. reflexivity.
Qed.

(** X13: [add_traj] reads a trajectory file to exactly one sample per record,
    in the order of the file, each with the arrays that [np.asarray] makes of
    the rotation and of the translation of its record and with its time
    stamp; the file is read to such a list exactly when it parses, can be
    iterated, and every record has the three keys and [np.asarray] makes an
    array of its rotation and of its translation.  Nothing is sorted or
    dropped. *)
Theorem read_traj_order (w : world) (traj_file : string)
    (poses : list PoseWithTime) :
  read_traj w traj_file = Ok poses <->
  exists data items,
    json_load w traj_file = Ok data /\ py_iter data = Ok items /\
    Forall2 (sampled_from w) items poses.
Proof.
  unfold read_traj. split.
  - intros H. apply bind_Ok in H as (data & Hdata & H).
    apply bind_Ok in H as (items & Hitems & H). exists data, items.
    split; [exact Hdata|]. split; [exact Hitems|].
    apply mapM_Ok_Forall2 in H. eapply Forall2_impl; [exact H|].
    intros item p. apply pose_of_item_sampled.
  - intros (data & items & -> & Hitems & Hall). simpl. rewrite Hitems. simpl.
    apply mapM_Ok_Forall2. eapply Forall2_impl; [exact Hall|].
    intros item p. apply pose_of_item_sampled.
Qed.

(** ** The participants that [load_pick_place] builds *)

Lemma Participant_add_objects_Ok (w : world) (part_files : list string)
    (part_scene_nums : list identity) (p : Participant) :
  Participant_add_objects w part_files part_scene_nums = Ok p ->
  (exists first, part_scene_nums !! 0%nat = Some first /\
                 first !! 0%nat = Some (part_num p)) /\
  Forall2 (fun (idf : identity * string) (s : Scene) =>
             idf.1 !! 1%nat = Some (scene_num s) /\
             Scene_add_objects w idf.2 (scene_num s) = Ok s)
          (zip part_scene_nums part_files) (scenes p).
Proof.
  unfold Participant_add_objects. intros H.
  apply bind_Ok in H as (first & Hfirst & H). apply bind_Ok in H as (pn & Hpn & H).
  apply bind_Ok in H as (new_scenes & Hs & [= <-]). simpl. split.
  - exists first. unfold tuple_get, list_get in *.
    destruct (part_scene_nums !! 0%nat); [|discriminate Hfirst].
    injection Hfirst as ->.
    match type of Hpn with
    | match ?o with _ => _ end = _ => destruct o as [x|] eqn:Hx
    end; [|discriminate Hpn].
    injection Hpn as ->. auto.
  - apply mapM_Ok_Forall2 in Hs. eapply Forall2_impl; [exact Hs|].
    intros [id file] s Hload. simpl in *.
    apply bind_Ok in Hload as (sn & Hsn & Hload).
    assert (scene_num s = sn) as <-.
    { unfold Scene_add_objects in Hload.
      apply bind_Ok in Hload as (? & _ & Hload).
      apply bind_Ok in Hload as (? & _ & Hload).
      apply bind_Ok in Hload as (? & _ & [= <-]). reflexivity. }
    split; [|exact Hload]. unfold tuple_get, list_get in Hsn.
    match type of Hsn with
    | match ?o with _ => _ end = _ => destruct o as [x|] eqn:Hx
    end; [|discriminate Hsn].
    injection Hsn as ->. exact Hx.
Qed.


(** X14: a participant that [Participant.add_objects] returns bears the
    first number of the first tuple and has one scene per file, in the order
    of the files, each loaded from its file and numbered with the second
    number of the tuple of the file. *)
Theorem Participant_add_objects_scenes (w : world) (part_files : list string)
    (part_scene_nums : list identity) (p : Participant) :
  Participant_add_objects w part_files part_scene_nums = Ok p ->
  (exists first, part_scene_nums !! 0%nat = Some first /\
                 first !! 0%nat = Some (part_num p)) /\
  Forall2 (fun (idf : identity * string) (s : Scene) =>
             idf.1 !! 1%nat = Some (scene_num s) /\
             Scene_add_objects w idf.2 (scene_num s) = Ok s)
          (zip part_scene_nums part_files) (scenes p).
Proof.
  intros H. destruct (Participant_add_objects_Ok _ _ _ _ H) as [Hfirst Hscenes].
  split; [exact Hfirst | exact Hscenes].
Qed.

Lemma Participant_add_objects_scenes_witness :
  exists first, [[2; 1]] !! 0%nat = Some first /\ first !! 0%nat = Some 2.
Proof.
  destruct (proj1 (Participant_add_objects_scenes world_two_participants
                     ["data/P2/S1/PickPlace_dataset.json"] [[2; 1]] _ eq_refl))
    as (first & H1 & H2).
  exists first. split; [exact H1 | exact H2].
Defined.

Lemma part_at_Ok (ids : list identity) (k : nat) (a : Z) :
  part_at ids k = Ok a <-> exists id, ids !! k = Some id /\ id !! 0%nat = Some a.
Proof.
  unfold part_at, tuple_get, list_get. destruct (ids !! k) as [id|]; simpl.
  - split.
    + intros H. exists id. split; [reflexivity|].
      match type of H with
      | match ?o with _ => _ end = _ => destruct o as [x|] eqn:Hx
      end; [injection H as ->; exact Hx | discriminate H].
    + intros (id' & [= <-] & H0).
      match goal with
      | |- match ?o with _ => _ end = _ => replace o with (Some a)
      end; reflexivity.
  - split; [discriminate | intros (? & [=] & _)].
Qed.

Lemma foldM_app {A S : Type} (f : S -> A -> res S) (st : S) (l1 l2 : list A) :
  foldM f st (l1 ++ l2) = (st' <- foldM f st l1 ;; foldM f st' l2).
Proof.
  revert st. induction l1 as [|x l1 IH]; intros st; simpl; [reflexivity|].
  destruct (f st x); simpl; [apply IH | reflexivity].
Qed.

Lemma foldM_ext {A S : Type} (f g : S -> A -> res S) (st : S) (l : list A) :
  (forall s x, f s x = g s x) -> foldM f st l = foldM g st l.
Proof.
  intros H. revert st. induction l as [|x l IH]; intros st; simpl; [reflexivity|].
  rewrite H. destruct (g st x); simpl; [apply IH | reflexivity].
Qed.

Lemma slice_lookup {A : Type} (a b : nat) (l : list A) (j : nat) (x : A) :
  slice a b l !! j = Some x -> l !! (a + j)%nat = Some x /\ (a + j < b)%nat.
Proof.
  unfold slice. rewrite lookup_drop. intros H.
  apply lookup_take_Some in H. tauto.
Qed.

Lemma slice_length {A : Type} (a b : nat) (l : list A) :
  (b <= length l)%nat -> length (slice a b l) = (b - a)%nat.
Proof. intros H. unfold slice. rewrite length_drop, length_take. lia. Qed.

Lemma take_slice {A : Type} (a b : nat) (l : list A) :
  (a <= b)%nat -> take b l = take a l ++ slice a b l.
Proof.
  intros H. unfold slice. rewrite <- (take_drop a (take b l)) at 1.
  rewrite take_take. replace (a `min` b)%nat with a by lia. reflexivity.
Qed.

(** The scenes of a participant loaded from a run of files of one number
    [a] bear [a] and the scene numbers of the run. *)
Lemma run_numbered (w : world) (fs : list string) (ns : list identity)
    (p : Participant) (a : Z) :
  length fs = length ns -> Participant_add_objects w fs ns = Ok p ->
  Forall (fun id => id !! 0%nat = Some a) ns ->
  part_num p = a /\
  Forall2 numbered ns (map (fun s => (part_num p, scene_num s)) (scenes p)).
Proof.
  intros Hlen Hp Hall. apply Participant_add_objects_Ok in Hp as [Hfirst Hs].
  destruct Hfirst as (first & Hf & Hpn).
  assert (Ha : part_num p = a).
  { rewrite Forall_forall in Hall.
    specialize (Hall first (list_elem_of_lookup_2 _ _ _ Hf)). congruence. }
  split; [exact Ha|]. rewrite Ha.
  rewrite <- (map_fst_zip ns fs) at 1 by lia.
  rewrite !map_fmap. apply Forall2_fmap. 
  assert (Hin : Forall (fun idf : identity * string => idf.1 !! 0%nat = Some a)
                       (zip ns fs)).
  { apply Forall_forall. intros [id f] Hidf. simpl.
    rewrite Forall_forall in Hall. apply Hall.
    apply list_elem_of_lookup_1 in Hidf as [i Hi].
    apply lookup_zip_Some in Hi as [Hi _]. eapply list_elem_of_lookup_2, Hi. }
  clear -Hs Hin. induction Hs as [|idf s l k [H1 _] _ IH]; [constructor|].
  apply Forall_cons in Hin as [H0 Hin]. constructor; [|apply IH, Hin].
  split; assumption.
Qed.

Lemma two_tests_step (w : world) (files : list string) (ids : list identity)
    (start : nat) (parts : list Participant) (i : nat)
    (st' : nat * list Participant) :
  pick_place_step_two_tests w files ids (start, parts) i = Ok st' ->
  exists a b, part_at ids start = Ok a /\ part_at ids i = Ok b /\
    ((a <> b /\ exists p,
        Participant_add_objects w (slice start i files) (slice start i ids) = Ok p /\
        st' = (i, parts ++ [p])) \/
     (a = b /\ i = (length ids - 1)%nat /\ exists p,
        Participant_add_objects w (slice start (i + 1) files)
          (slice start (i + 1) ids) = Ok p /\
        st' = (start, parts ++ [p])) \/
     (a = b /\ i <> (length ids - 1)%nat /\ st' = (start, parts))).
Proof.
  unfold pick_place_step_two_tests. cbn [fst snd]. intros H.
  apply bind_Ok in H as (a & Ha & H). apply bind_Ok in H as (b & Hb & H).
  exists a, b. split; [exact Ha|]. split; [exact Hb|].
  destruct (Z.eqb_spec a b) as [Hab | Hab]; cbn [negb andb] in H.
  - destruct (Nat.eqb_spec i (length ids - 1)) as [Hi | Hi].
    + right. left. unfold add_participant in H.
      apply bind_Ok in H as (parts' & H & [= <-]).
      apply bind_Ok in H as (p & Hp & [= <-]). eauto 10.
    + right. right. injection H as <-. auto.
  - left. unfold add_participant in H.
    apply bind_Ok in H as (parts' & H & [= <-]).
    apply bind_Ok in H as (p & Hp & [= <-]). eauto 10.
Qed.

Lemma adjacent_differ_snoc (l : list Z) (y : Z) :
  adjacent_differ l -> (forall x, last l = Some x -> x <> y) ->
  adjacent_differ (l ++ [y]).
Proof.
  intros Hl Hlast i a b Ha Hb.
  destruct (lt_dec (S i) (length l)) as [Hlt | Hge].
  - rewrite lookup_app_l in Ha, Hb by lia. eapply Hl; eassumption.
  - assert (Hi : S i = length l).
    { apply lookup_lt_Some in Hb. rewrite length_app in Hb. simpl in Hb. lia. }
    rewrite lookup_app_l in Ha by lia.
    rewrite lookup_app_r in Hb by lia.
    rewrite Hi, Nat.sub_diag in Hb. injection Hb as <-.
    apply Hlast. rewrite last_lookup. rewrite <- Hi. exact Ha.
Qed.

Lemma part_scene_pairs_snoc (parts : list Participant) (p : Participant) :
  part_scene_pairs (parts ++ [p]) =
  part_scene_pairs parts ++ map (fun s => (part_num p, scene_num s)) (scenes p).
Proof.
  unfold part_scene_pairs. rewrite flat_map_app. simpl. rewrite app_nil_r.
  reflexivity.
Qed.

(** The tuples of the files from [start] to [k] all begin with the number of
    the tuple at [start]. *)
Lemma run_of_one_participant (ids : list identity) (start k : nat) (a : Z) :
  part_at ids start = Ok a ->
  (forall j, (start <= j < k)%nat -> part_at ids j = part_at ids start) ->
  Forall (fun id => id !! 0%nat = Some a) (slice start k ids).
Proof.
  intros Ha Hrun. apply Forall_lookup. intros j id Hj.
  apply slice_lookup in Hj as [Hj Hlt].
  assert (Hpa : part_at ids (start + j) = Ok a) by (rewrite Hrun; [exact Ha | lia]).
  apply part_at_Ok in Hpa as (id' & Hid' & H0). congruence.
Qed.

(** The state of the loop of [load_pick_place] before the last file. *)
Lemma pick_place_loop_invariant (w : world) (files : list string)
    (ids : list identity) (k : nat) (st : nat * list Participant) :
  length files = length ids -> (k < length ids)%nat ->
  foldM (pick_place_step_two_tests w files ids) (0%nat, []) (seq 0 k) = Ok st ->
  (st.1 <= k - 1)%nat /\
  Forall2 numbered (take st.1 ids) (part_scene_pairs st.2) /\
  (forall j, (st.1 <= j < k)%nat -> part_at ids j = part_at ids st.1) /\
  adjacent_differ (map part_num st.2) /\
  (forall p, last st.2 = Some p -> part_at ids st.1 <> Ok (part_num p)).
Proof.
  intros Hlen. revert st. induction k as [|k IH]; intros st Hk Hfold.
  - injection Hfold as <-. simpl. split; [lia|]. split; [constructor|].
    split; [intros j Hj; lia|]. split; [intros i a b Ha; discriminate Ha|].
    intros p Hp. discriminate Hp.
  - rewrite seq_S, foldM_app in Hfold. simpl in Hfold.
    apply bind_Ok in Hfold as ([start parts] & Hst1 & Hstep).
    apply bind_Ok in Hstep as (st2 & Hstep & [= <-]).
    destruct (IH _ ltac:(lia) Hst1) as (Hstart & Hnum & Hrun & Hadj & Hlast).
    simpl in Hstart, Hnum, Hrun, Hadj, Hlast.
    apply two_tests_step in Hstep
      as (a & b & Ha & Hb & [(Hab & p & Hp & ->) | [(_ & Hi & _) | (Hab & _ & ->)]]);
      [| lia |]; simpl.
    + pose proof (run_of_one_participant ids start k a Ha Hrun) as Hall.
      apply run_numbered with (a := a) in Hp as [Hpn Hp]; [| |exact Hall].
      2:{ rewrite !slice_length by lia. reflexivity. }
      assert (Hsk : (start <= k)%nat) by lia.
      split; [lia|]. split; [|split; [|split]].
      * rewrite (take_slice start k ids Hsk), part_scene_pairs_snoc.
        apply Forall2_app; assumption.
      * intros j Hj. replace j with k by lia. reflexivity.
      * rewrite map_app. apply adjacent_differ_snoc; [exact Hadj|].
        intros x Hx. rewrite map_fmap, fmap_last in Hx.
        destruct (last parts) as [q|] eqn:Hq; [|discriminate Hx].
        injection Hx as <-. simpl. rewrite Hpn. intros Heq.
        apply (Hlast q eq_refl). rewrite Ha, Heq. reflexivity.
      * intros q Hq. rewrite last_snoc in Hq. injection Hq as <-.
        rewrite Hb, Hpn. intros [= Heq]. apply Hab. symmetry. exact Heq.
    + split; [lia|]. split; [exact Hnum|]. split; [|split; assumption].
      intros j Hj. destruct (Nat.eq_dec j k) as [-> | Hne].
      * rewrite Ha, Hb, Hab. reflexivity.
      * apply Hrun. lia.
Qed.

Lemma group_participants_runs (w : world) (files : list string)
    (ids : list identity) (parts : list Participant) :
  length files = length ids ->
  group_participants w files ids = Ok parts ->
  Forall2 numbered (if drops_last ids then removelast ids else ids)
          (part_scene_pairs parts) /\
  adjacent_differ (map part_num parts).
Proof.
  intros Hlen. unfold group_participants. intros H.
  apply bind_Ok in H as (st & Hfold & [= <-]).
  rewrite (foldM_ext _ (pick_place_step_two_tests w files ids)) in Hfold
    by (intros; apply special_case_never_runs).
  destruct (length ids) as [|m] eqn:Hn.
  { injection Hfold as <-. simpl.
    destruct ids; [|discriminate Hn]. split; [constructor|].
    intros i a b Ha. discriminate Ha. }
  rewrite seq_S, foldM_app in Hfold. simpl in Hfold.
  apply bind_Ok in Hfold as ([start parts1] & Hst1 & Hstep).
  apply bind_Ok in Hstep as (st2 & Hstep & [= <-]).
  destruct (pick_place_loop_invariant w files ids m _
              ltac:(rewrite Hn; exact Hlen) ltac:(lia) Hst1)
    as (Hstart & Hnum & Hrun & Hadj & Hlast).
  simpl in Hstart, Hnum, Hrun, Hadj, Hlast.
  apply two_tests_step in Hstep
    as (a & b & Ha & Hb & [(Hab & p & Hp & ->) | [(Hab & _ & p & Hp & ->) | (_ & Hi & _)]]);
    [| | lia]; simpl.
  - assert (Hm : (1 <= m)%nat).
    { destruct m; [|lia]. exfalso. apply Hab.
      replace start with 0%nat in Ha by lia. congruence. }
    pose proof (run_of_one_participant ids start m a Ha Hrun) as Hall.
    apply run_numbered with (a := a) in Hp as [Hpn Hp]; [| |exact Hall].
    2:{ rewrite !slice_length by lia. reflexivity. }
    assert (Hdrop : drops_last ids = true).
    { unfold drops_last. rewrite Hn.
      replace (S m - 2)%nat with (m - 1)%nat by lia.
      replace (S m - 1)%nat with m by lia.
      rewrite (Hrun (m - 1)%nat) by lia. rewrite Ha, Hb.
      apply andb_true_iff. split; [apply Nat.leb_le; lia|].
      apply negb_true_iff, Z.eqb_neq, Hab. }
    rewrite Hdrop, removelast_firstn_len, Hn. simpl Nat.pred. split.
    + rewrite (take_slice start m ids) by lia. rewrite part_scene_pairs_snoc.
      apply Forall2_app; assumption.
    + rewrite map_app. apply adjacent_differ_snoc; [exact Hadj|].
      intros x Hx. rewrite map_fmap, fmap_last in Hx.
      destruct (last parts1) as [q|] eqn:Hq; [|discriminate Hx].
      injection Hx as <-. simpl. rewrite Hpn. intros Heq.
      apply (Hlast q eq_refl). rewrite Ha, Heq. reflexivity.
  - subst b.
    assert (Hall : Forall (fun id => id !! 0%nat = Some a) (slice start (m + 1) ids)).
    { apply (run_of_one_participant ids start (m + 1) a Ha).
      intros j Hj. destruct (Nat.eq_dec j m) as [-> | Hne].
      - rewrite Ha, Hb. reflexivity.
      - apply Hrun. lia. }
    apply run_numbered with (a := a) in Hp as [Hpn Hp]; [| |exact Hall].
    2:{ rewrite !slice_length by lia. reflexivity. }
    assert (Hdrop : drops_last ids = false).
    { unfold drops_last. rewrite Hn.
      replace (S m - 1)%nat with m by lia. rewrite Hb.
      destruct m as [|m'].
      - simpl. rewrite Hb. reflexivity.
      - replace (S (S m') - 2)%nat with m' by lia.
        rewrite (Hrun m') by lia. rewrite Ha, Z.eqb_refl.
        apply andb_false_r. }
    rewrite Hdrop. split.
    + rewrite <- (firstn_all ids) at 1. rewrite Hn.
      replace (S m) with (m + 1)%nat by lia.
      rewrite (take_slice start (m + 1) ids) by lia.
      rewrite part_scene_pairs_snoc. apply Forall2_app; assumption.
    + rewrite map_app. apply adjacent_differ_snoc; [exact Hadj|].
      intros x Hx. rewrite map_fmap, fmap_last in Hx.
      destruct (last parts1) as [q|] eqn:Hq; [|discriminate Hx].
      injection Hx as <-. simpl. rewrite Hpn. intros Heq.
      apply (Hlast q eq_refl). rewrite Ha, Heq. reflexivity.
Qed.

(** X15: when [load_pick_place] returns, the scenes of its participants, in
    order, bear the participant and scene numbers of the files that the
    crawler returned, in the same order, one scene per file; only the last
    file is left out, exactly when it belongs to another participant than
    the file before it.  Two participants that follow each other never bear
    the same number. *)
Theorem load_pick_place_runs (w : world) (root : string)
    (parts : list Participant) :
  load_pick_place w root = Ok parts ->
  exists f, file_crawler w root "PickPlace_dataset" false = Ok f /\
    Forall2 numbered (if drops_last f.2 then removelast f.2 else f.2)
            (part_scene_pairs parts) /\
    adjacent_differ (map part_num parts).
Proof.
  unfold load_pick_place. intros H. apply bind_Ok in H as (f & Hf & H).
  exists f. split; [exact Hf|]. apply (group_participants_runs w f.1); [|exact H].
  apply file_crawler_entries in Hf as (es & _ & _ & ->). simpl.
  rewrite !length_map. reflexivity.
Qed.

Lemma load_pick_place_runs_witness :
  exists f, file_crawler world_three_participants "data" "PickPlace_dataset" false = Ok f /\
    Forall2 numbered (if drops_last f.2 then removelast f.2 else f.2)
            (part_scene_pairs three_participants) /\
    adjacent_differ (map part_num three_participants).
Proof.
  apply (load_pick_place_runs world_three_participants "data" three_participants).
  vm_compute. reflexivity.
Defined.

Example three_participants_pairs :
  part_scene_pairs three_participants = [(1, 1); (1, 2); (2, 1); (3, 1); (3, 2)].
Proof. reflexivity. Qed.

(** ** What loading the trajectories leaves unchanged *)

Lemma add_obj_traj_one_same (w : world) (pool : list string)
    (obj obj' : ObjWithTraj) :
  add_obj_traj_one w pool obj = Ok obj' -> same_but_trajectory obj obj'.
Proof.
  unfold add_obj_traj_one, same_but_trajectory.
  destruct (List.find _ pool) as [file|].
  - unfold ObjWithTraj_add_traj. intros H.
    apply bind_Ok in H as (poses & _ & [= <-]). simpl. eauto 10.
  - intros [= <-]. repeat split. exists []. rewrite app_nil_r. reflexivity.
Qed.

Lemma add_trajectories_scene_same (w : world) (pn : Z)
    (part_files : list string) (aux : list Z)
    (cam : option (list string * list identity)) (scene scene' : Scene) :
  add_trajectories_scene w pn part_files aux cam scene = Ok scene' ->
  scene_num scene' = scene_num scene /\
  initial_objs scene' = initial_objs scene /\
  cam_traj scene' = cam_traj scene /\
  Forall2 same_but_trajectory (objs_info scene) (objs_info scene').
Proof.
  unfold add_trajectories_scene. intros H.
  apply bind_Ok in H as (scene1 & H1 & H).
  assert (Heq : scene' = scene1).
  { destruct cam as [[cam_files cam_nums]|]; [|congruence].
    apply bind_Ok in H as (k & _ & H). apply bind_Ok in H as (file & _ & H).
    apply Scene_add_cam_traj_Ok in H as [_ ->]. reflexivity. }
  subst scene'. unfold Scene_add_obj_traj in H1.
  apply bind_Ok in H1 as (objs & Hobjs & [= <-]). simpl.
  repeat split. apply mapM_Ok_Forall2 in Hobjs.
  eapply Forall2_impl; [exact Hobjs|]. intros obj obj'.
  apply add_obj_traj_one_same.
Qed.

Lemma Participant_add_trajectories_same (w : world) (part part' : Participant)
    (part_files : list string) (part_scene_nums : list identity)
    (cam : option (list string * list identity)) :
  Participant_add_trajectories w part part_files part_scene_nums cam = Ok part' ->
  same_structure part part'.
Proof.
  unfold Participant_add_trajectories, same_structure. intros H.
  apply bind_Ok in H as (aux & _ & H).
  apply bind_Ok in H as (new_scenes & Hs & [= <-]). simpl.
  split; [reflexivity|]. apply mapM_Ok_Forall2 in Hs.
  eapply Forall2_impl; [exact Hs|]. intros s s'.
  apply add_trajectories_scene_same.
Qed.

Lemma same_structure_pairs (parts parts' : list Participant) :
  Forall2 same_structure parts parts' ->
  part_scene_pairs parts' = part_scene_pairs parts.
Proof.
  unfold part_scene_pairs. induction 1 as [|p p' ps ps' [Hpn Hs] _ IH]; simpl;
    [reflexivity|].
  rewrite IH, Hpn. f_equal.
  induction Hs as [|s s' ss ss' [Hsn _] _ IHs]; simpl; [reflexivity|].
  rewrite IHs, Hsn. reflexivity.
Qed.

(** X16: [load_trajectories] returns the participants it was given, with
    the same numbers, the same scenes and the same objects in the same
    order: names, unique ids, poses and camera trajectories are untouched,
    and a trajectory only gets samples appended. *)
Theorem load_trajectories_keeps_structure (w : world) (root : string)
    (load_cam : bool) (parts parts' : list Participant) :
  load_trajectories w root load_cam parts = Ok parts' ->
  Forall2 same_structure parts parts' /\
  part_scene_pairs parts' = part_scene_pairs parts.
Proof.
  unfold load_trajectories. intros H.
  apply bind_Ok in H as (f & _ & H). apply bind_Ok in H as (aux & _ & H).
  apply mapM_Ok_Forall2 in H.
  assert (G : Forall2 same_structure parts parts').
  { eapply Forall2_impl; [exact H|]. intros p p' Hp.
    unfold load_trajectories_part in Hp.
    destruct load_cam; eapply Participant_add_trajectories_same, Hp. }
  split; [exact G | apply same_structure_pairs, G].
Qed.

Lemma load_trajectories_keeps_structure_witness :
  Forall2 same_structure [participant_banana []]
          [participant_banana [sample 100; sample 500]] /\
  part_scene_pairs [participant_banana [sample 100; sample 500]] =
    part_scene_pairs [participant_banana []].
Proof.
  apply (load_trajectories_keeps_structure world_with_camera "data" false).
  vm_compute. reflexivity.
Defined.

(** ** Looking up the camera file of a scene *)




(** ** Queries that do not depend on the trajectories *)

Lemma same_structure_sequences (ps ps' : list Participant)
    (unique_objs_only start_token : bool) (r l : string) (c c' : bool) :
  Forall2 same_structure ps ps' ->
  get_sequences {| root_folder := r; load_cam_traj := c; participants := ps' |}
                unique_objs_only start_token =
  get_sequences {| root_folder := l; load_cam_traj := c'; participants := ps |}
                unique_objs_only start_token.
Proof.
  unfold get_sequences. simpl.
  induction 1 as [|p p' ps ps' [Hpn Hs] _ IH]; simpl; [reflexivity|].
  rewrite IH, Hpn. f_equal.
  destruct (unique_objs_only && (part_num p <? UNIQ_OBJS)); [reflexivity|].
  induction Hs as [|s s' ss ss' (Hsn & _ & _ & Hobjs) _ IHs]; simpl; [reflexivity|].
  rewrite IHs, Hsn. f_equal.
  assert (Hnames : map name (objs_info s') = map name (objs_info s)).
  { clear -Hobjs. induction Hobjs as [|o o' os os' (Hn & _) _ IHo]; simpl;
      [reflexivity | rewrite IHo, Hn; reflexivity]. }
  rewrite Hnames. reflexivity.
Qed.

Lemma same_objs_grasps (grasp_type : string) (targets : list string)
    (objs objs' : list ObjWithTraj) (acc : gmap string (list Pose)) :
  Forall2 same_but_trajectory objs objs' ->
  foldl (add_grasp grasp_type targets) acc objs' =
  foldl (add_grasp grasp_type targets) acc objs.
Proof.
  intros H. revert acc.
  induction H as [|o o' os os' (Hn & _ & Hpick & Hplace & _) _ IH]; intros acc;
    simpl; [reflexivity|].
  rewrite IH. f_equal. unfold add_grasp. rewrite Hn, Hpick, Hplace. reflexivity.
Qed.

Lemma same_structure_objs (ps ps' : list Participant) :
  Forall2 same_structure ps ps' ->
  Forall2 same_but_trajectory (flat_map objs_info (flat_map scenes ps))
          (flat_map objs_info (flat_map scenes ps')).
Proof.
  induction 1 as [|p p' ps ps' [_ Hs] _ IH]; simpl; [constructor|].
  rewrite !flat_map_app. apply Forall2_app; [|exact IH].
  clear -Hs. induction Hs as [|s s' ss ss' (_ & _ & _ & Hobjs) _ IHs]; simpl;
    [constructor | apply Forall2_app; assumption].
Qed.

(** X18: the packing sequences and the grasp poses of a dataset do not
    depend on its trajectories: on the participants that [load_trajectories]
    returns, [get_sequences] and [get_grasp_poses] give what they give on the
    participants as [load_pick_place] built them. *)
Theorem queries_ignore_trajectories (w : world) (root : string) (load_cam : bool)
    (b b' : BoxED) (unique_objs_only start_token : bool) (grasp_type : string)
    (objs : pyval) :
  load_trajectories w root load_cam (participants b) = Ok (participants b') ->
  get_sequences b' unique_objs_only start_token =
    get_sequences b unique_objs_only start_token /\
  get_grasp_poses b' grasp_type objs = get_grasp_poses b grasp_type objs.
Proof.
  intros H.
  assert (G : Forall2 same_structure (participants b) (participants b')).
  { unfold load_trajectories in H.
    apply bind_Ok in H as (f & _ & H). apply bind_Ok in H as (aux & _ & H).
    apply mapM_Ok_Forall2 in H. eapply Forall2_impl; [exact H|]. intros p p' Hp.
    unfold load_trajectories_part in Hp.
    destruct load_cam; eapply Participant_add_trajectories_same, Hp. }
  split.
  - destruct b, b'. simpl in G. apply same_structure_sequences, G.
  - unfold get_grasp_poses. f_equal.
    destruct (grasp_targets grasp_type objs).2 as [targets|e]; simpl;
      [|reflexivity].
    f_equal. rewrite !foldl_flat_map.
    apply same_objs_grasps, same_structure_objs, G.
Qed.

Lemma queries_ignore_trajectories_witness :
  get_sequences
    {| root_folder := "data"; load_cam_traj := false;
       participants := [participant_banana [sample 100; sample 500]] |} false true =
  get_sequences
    {| root_folder := "data"; load_cam_traj := false;
       participants := [participant_banana []] |} false true /\
  get_grasp_poses
    {| root_folder := "data"; load_cam_traj := false;
       participants := [participant_banana [sample 100; sample 500]] |}
    "pick" (PStr "all") =
  get_grasp_poses
    {| root_folder := "data"; load_cam_traj := false;
       participants := [participant_banana []] |} "pick" (PStr "all").
Proof.
  apply (queries_ignore_trajectories world_with_camera "data" false
           {| root_folder := "data"; load_cam_traj := false;
              participants := [participant_banana []] |}
           {| root_folder := "data"; load_cam_traj := false;
              participants := [participant_banana [sample 100; sample 500]] |}).
  vm_compute. reflexivity.
Defined.

(** ** A dataset without pick and place files *)

Lemma mapM_total {A B : Type} (f : A -> res B) (l : list A) :
  Forall (fun x => exists y, f x = Ok y) l -> exists ys, mapM f l = Ok ys.
Proof.
  induction 1 as [|x l [y Hy] _ [ys IH]]; simpl; [eauto|].
  rewrite Hy. simpl. rewrite IH. simpl. eauto.
Qed.

Lemma tuple_get_0 (id : identity) :
  match id with
  | [] => tuple_get id 0 = Raise IndexError
  | a :: _ => tuple_get id 0 = Ok a
  end.
Proof. destruct id; reflexivity. Qed.

(** X19: on a folder that holds no pick and place file, [BoxED.__init__]
    returns a dataset without participants, whatever trajectory files there
    are, unless one of them lies in a folder whose path has no digit: the
    construction then raises [IndexError]. *)
Theorem BoxED_init_no_pick_place (w : world) (root : string) (load_cam : bool) :
  is_dir w root = true -> all_matches w root "PickPlace_dataset" = [] ->
  (Forall (fun e : entry => e.1 <> []) (all_matches w root "trajectory") ->
   BoxED_init w (Some root) load_cam =
     Ok {| root_folder := root; load_cam_traj := load_cam; participants := [] |}) /\
  (Exists (fun e : entry => e.1 = []) (all_matches w root "trajectory") ->
   BoxED_init w (Some root) load_cam = Raise IndexError).
Proof.
  intros Hdir Hnone. unfold BoxED_init. rewrite Hdir. simpl.
  unfold load_pick_place. rewrite file_crawler_returns, Hnone. simpl.
  unfold load_trajectories. rewrite file_crawler_returns. simpl.
  set (ids := map fst (py_sorted entry_ltb (all_matches w root "trajectory"))).
  assert (Hperm : forall id, In id ids <->
            exists e, In e (all_matches w root "trajectory") /\ e.1 = id).
  { intros id. unfold ids. rewrite in_map_iff. split; intros (e & H1 & H2).
    - exists e. split; [|exact H1].
      apply list_elem_of_In. rewrite <- (py_sorted_perm entry_ltb).
      apply list_elem_of_In, H2.
    - exists e. split; [exact H2|].
      apply list_elem_of_In. rewrite (py_sorted_perm entry_ltb).
      apply list_elem_of_In, H1. }
  split.
  - intros Hall.
    destruct (mapM_total (fun x => tuple_get x 0) ids) as [aux ->]; [|reflexivity].
    apply Forall_forall. intros id Hid. apply list_elem_of_In, Hperm in Hid as (e & He & <-).
    rewrite Forall_forall in Hall. specialize (Hall e (proj2 (list_elem_of_In _ _) He)).
    pose proof (tuple_get_0 e.1) as H0. destruct e.1; [contradiction | eauto].
  - intros Hex. apply Exists_exists in Hex as (e & He & Hempty).
    rewrite (mapM_raises_same (fun x => tuple_get x 0) ids [] IndexError);
      [reflexivity | | | reflexivity].
    + intros id _. pose proof (tuple_get_0 id) as H0. destruct id; eauto.
    + apply list_elem_of_In, Hperm. exists e. split; [|exact Hempty].
      apply list_elem_of_In, He.
Qed.

Lemma BoxED_init_no_pick_place_witness :
  BoxED_init world_no_pick_place (Some "data") true =
    Ok {| root_folder := "data"; load_cam_traj := true; participants := [] |}.
Proof.
  apply (proj1 (BoxED_init_no_pick_place world_no_pick_place "data" true
                  eq_refl eq_refl)).
  repeat constructor. discriminate.
Defined.

Lemma BoxED_init_cam_traj_witness :
  Forall (fun s => cam_traj s = []) (all_scenes dataset_with_camera).
Proof.
  apply (BoxED_init_cam_traj world_with_camera (Some "data") false
           dataset_with_camera).
  vm_compute. reflexivity.
Defined.

